(** * can-telemetry: request/response polling over a CAN bus

    A shallow embedding of [src/can-telemetry.cpp] (class [CANTelemetry])
    and the properties of its polling, filtering and decoding logic.

    Conventions.
    - C++ [int] and the fixed-width unsigned types are integers in [Z]; every
      conversion the source performs between them is written out
      ([to_uint8], [to_uint32], [to_int], [to_ulong]).
    - A [uint8_t] is a [Byte.byte]; a buffer or array is a [list byte] read
      with stdpp's lookup [!!] and written with [<[i:=b]>].  An access
      outside the array is undefined behaviour in C++; the model makes it an
      explicit failure.
    - The CAN channel is an external collaborator.  Its answers come from an
      oracle ([Env]); the calls made on it are logged in the state
      ([World]), next to the filters it holds.
    - The wait loop of [poll] runs for at most [fuel] iterations; a run is
      one of [Returns], [Undefined] (an access out of bounds) and
      [OutOfFuel]. *)

From Stdlib Require Import ZArith Lia.
From Stdlib.Strings Require Import Byte.
From stdpp Require Import base list.

Local Open Scope Z_scope.

(** ** Machine integers *)

Definition to_uint8 (z : Z) : Z := z mod 2 ^ 8.
Definition to_uint32 (z : Z) : Z := z mod 2 ^ 32.
Definition to_uint64 (z : Z) : Z := z mod 2 ^ 64.

(** [unsigned long] is 32 bits wide on the targets of this library
    (32-bit ARM microcontrollers). *)
Definition to_ulong (z : Z) : Z := z mod 2 ^ 32.

(** Conversion of an unsigned 32-bit value to [int] (two's complement). *)
Definition to_int (z : Z) : Z := (z + 2 ^ 31) mod 2 ^ 32 - 2 ^ 31.

(** The value of [return -1] in a function returning [uint64_t]. *)
Definition SENTINEL : Z := to_uint64 (-1).

(** The numeric value of a [uint8_t]. *)
Definition byte_val (b : byte) : Z := Z.of_N (Byte.to_N b).

(** ** Byte buffers *)

(** The loop [for (int i = 0; i < len; i++) dst[i] = src[i];] started at
    index [i] with [count] iterations left.  Reading [src] or writing [dst]
    outside its bounds has no defined result. *)
Fixpoint copy_loop (src : list byte) (count : nat) (i : nat) (dst : list byte)
  : option (list byte) :=
  match count with
  | O => Some dst
  | S count' =>
      match src !! i with
      | None => None
      | Some b =>
          if decide (i < length dst)%nat
          then copy_loop src count' (S i) (<[i := b]> dst)
          else None
      end
  end.

(** The whole loop, for an [int] bound [len]: no iteration when
    [len <= 0]. *)
Definition copy_bytes (src : list byte) (len : Z) (dst : list byte)
  : option (list byte) :=
  copy_loop src (Z.to_nat len) 0 dst.

(** An 8-byte buffer read as a [uint64_t] through [*(uint64_t * )n], on a
    little-endian target: byte 0 is the least significant. *)
Fixpoint le_value (n : list byte) : Z :=
  match n with
  | [] => 0
  | b :: n' => byte_val b + 2 ^ 8 * le_value n'
  end.

(** [uint8_t n[8] = {0};] *)
Definition zero_buffer : list byte := replicate 8 x00.

(** [CANTelemetry::_decode] *)
Definition _decode (arr : list byte) (len : Z) : option Z :=
  match copy_bytes arr len zero_buffer with
  | Some n => Some (le_value n)
  | None => None
  end.

(** The packing described in words: the sum over [i < count] of
    [bytes[i] * 2^(8*i)], a missing byte counting as zero. *)
Definition byte_at (bytes : list byte) (i : nat) : Z :=
  match bytes !! i with
  | Some b => byte_val b
  | None => 0
  end.

Definition le_sum (bytes : list byte) (count : nat) : Z :=
  foldr Z.add 0
    (map (fun i => byte_at bytes i * 2 ^ (8 * Z.of_nat i)) (seq 0 count)).

(** ** The CAN channel *)

(** Modelled from the spec: the frame type [CANMessage] of the bus
    collaborator.  A frame carries an identifier ([uint32_t]), a data
    length ([uint8_t]), a remote/data flag and 8 data bytes; a
    default-constructed frame is all zero. *)
Module CANMessage.
Record t : Type := mk { id : Z; len : Z; rtr : bool; data : list byte }.

Definition default : t :=
  {| id := 0; len := 0; rtr := false; data := replicate 8 x00 |}.

Definition set_id (m : t) (v : Z) : t :=
  {| id := v; len := len m; rtr := rtr m; data := data m |}.

(** A frame as the bus delivers it: 8 data bytes, of which [len] count. *)
Definition well_formed (m : t) : Prop :=
  length (data m) = 8%nat /\ 0 <= len m <= 8.
End CANMessage.

(** The calls made on the channel, in the order they are made. *)
Inductive bus_call : Type :=
  | Begin (baud_rate : Z) (test_mode : bool)
  | ClearFilters
  | AddFilter (id mask : Z)
  | Transmit (m : CANMessage.t)
  | ErrorStatus
  | Receive.

(** What the channel and the clock answer: the n-th [errorStatus()], the
    n-th [receive()] and the n-th [millis()] of a run. *)
Record Env : Type := {
  errorStatus_at : nat -> Z;
  receive_at : nat -> option CANMessage.t;
  millis_at : nat -> Z
}.

(** The state the code acts on: the acceptance filters installed on the
    channel, the log of calls, and how many answers were consumed. *)
Record World : Type := {
  filters : list (Z * Z);
  calls : list bus_call;
  errors_read : nat;
  receives : nat;
  clock_reads : nat
}.

Definition log (c : bus_call) (w : World) : World :=
  {| filters := filters w; calls := calls w ++ [c];
     errors_read := errors_read w; receives := receives w;
     clock_reads := clock_reads w |}.

Definition with_filters (fs : list (Z * Z)) (w : World) : World :=
  {| filters := fs; calls := calls w;
     errors_read := errors_read w; receives := receives w;
     clock_reads := clock_reads w |}.

(** The frames transmitted, in order. *)
Definition transmitted (cs : list bus_call) : list CANMessage.t :=
  omap (fun c => match c with Transmit m => Some m | _ => None end) cs.

Definition is_receive (c : bus_call) : bool :=
  match c with Receive => true | _ => false end.

Definition is_transmit (c : bus_call) : bool :=
  match c with Transmit _ => true | _ => false end.

(** ** Computations on the world *)

Inductive outcome (A : Type) : Type :=
  | Returns (a : A) (w : World)
  | Undefined
  | OutOfFuel.
Arguments Returns {A} a w.
Arguments Undefined {A}.
Arguments OutOfFuel {A}.

Definition M (A : Type) : Type := World -> outcome A.

Definition ret {A} (a : A) : M A := fun w => Returns a w.

Definition bind {A B} (c : M A) (k : A -> M B) : M B :=
  fun w =>
    match c w with
    | Returns a w' => k a w'
    | Undefined => Undefined
    | OutOfFuel => OutOfFuel
    end.

Definition defined {A} (o : option A) : M A :=
  fun w => match o with Some a => Returns a w | None => Undefined end.

Declare Scope can_scope.
Delimit Scope can_scope with can.
Notation "x <- c ;; k" := (bind c (fun x => k))
  (at level 100, c at next level, k at level 200, right associativity)
  : can_scope.
Notation "c ;; k" := (bind c (fun _ => k))
  (at level 100, k at level 200, right associativity) : can_scope.
Local Open Scope can_scope.

Section Telemetry.

(** The mode constants of [can-telemetry.h] and the channel's no-error
    status: any integers. *)
Variable CALL_AND_RESP : Z.
Variable PASSIVE_POLL : Z.
Variable CAN_NO_ERROR : Z.

Variable env : Env.

(** *** The collaborator's operations *)

(** Modelled from the spec: [begin(bitRate, mode?)] initialises the bus, in
    test mode when the optional mode says so. *)
Definition begin (baud_rate : Z) (test_mode : bool) : M unit :=
  fun w => Returns tt (log (Begin baud_rate test_mode) w).

(** Modelled from the spec: [clearFilters()] removes all active receive
    filters. *)
Definition clearFilters : M unit :=
  fun w => Returns tt (with_filters [] (log ClearFilters w)).

(** Modelled from the spec: [addFilter(id, mask)] installs an acceptance
    filter. *)
Definition addFilter (id mask : Z) : M unit :=
  fun w => Returns tt
    (with_filters (filters w ++ [(id, mask)]) (log (AddFilter id mask) w)).

(** Modelled from the spec: [transmit(frame)] sends a frame. *)
Definition transmit (m : CANMessage.t) : M unit :=
  fun w => Returns tt (log (Transmit m) w).

(** Modelled from the spec: [errorStatus()] is the current error state of
    the bus. *)
Definition errorStatus : M Z :=
  fun w =>
    Returns (errorStatus_at env (errors_read w))
      {| filters := filters w; calls := calls w ++ [ErrorStatus];
         errors_read := S (errors_read w); receives := receives w;
         clock_reads := clock_reads w |}.

(** Modelled from the spec: [receive(frame&)] does not block; it tells
    whether a frame was available and deposits it. *)
Definition receive : M (option CANMessage.t) :=
  fun w =>
    Returns (receive_at env (receives w))
      {| filters := filters w; calls := calls w ++ [Receive];
         errors_read := errors_read w; receives := S (receives w);
         clock_reads := clock_reads w |}.

(** The millisecond clock of the platform, an [unsigned long]. *)
Definition millis : M Z :=
  fun w =>
    Returns (to_ulong (millis_at env (clock_reads w)))
      {| filters := filters w; calls := calls w;
         errors_read := errors_read w; receives := receives w;
         clock_reads := S (clock_reads w) |}.

(** *** The class *)

Record CANTelemetry : Type := {
  _baud_rate : Z;
  _node_id : Z;
  _timeout : Z;
  _debug : bool
}.

(** [CANTelemetry::_set_mask(int mask)] *)
Definition _set_mask (mask : Z) : M unit :=
  clearFilters ;; addFilter mask 0x7FF.

(** [CANTelemetry::_set_mask()] *)
Definition _set_mask_default (self : CANTelemetry) : M unit :=
  _set_mask (_node_id self).

(** [CANTelemetry::CANTelemetry] *)
Definition CANTelemetry_new (baud_rate node_id timeout : Z) (debug : bool)
  : M CANTelemetry :=
  let self := {| _baud_rate := baud_rate; _node_id := node_id;
                 _timeout := to_ulong timeout; _debug := debug |} in
  (if debug then begin baud_rate true else begin baud_rate false) ;;
  _set_mask_default self ;;
  ret self.

(** [CANTelemetry::change_timeout] *)
Definition change_timeout (self : CANTelemetry) (timeout : Z)
  : CANTelemetry :=
  {| _baud_rate := _baud_rate self; _node_id := _node_id self;
     _timeout := to_ulong timeout; _debug := _debug self |}.

(** The [while (true)] loop of [poll], at most [fuel] iterations of it. *)
Fixpoint wait_loop (fuel : nat) (self : CANTelemetry) (t_stamp : Z)
  : M Z :=
  match fuel with
  | O => fun _ => OutOfFuel
  | S fuel' =>
      r <- receive ;;
      match r with
      | Some response =>
          _set_mask_default self ;;
          defined (_decode (CANMessage.data response)
                           (CANMessage.len response))
      | None =>
          now <- millis ;;
          if _timeout self <=? to_ulong (now - t_stamp)
          then _set_mask_default self ;; ret SENTINEL
          else wait_loop fuel' self t_stamp
      end
  end.

(** [CANTelemetry::poll(header, filter, mode, frame, payload, len)] *)
Definition poll (fuel : nat) (self : CANTelemetry) (header filter mode : Z)
  (frame : bool) (payload : list byte) (len : Z) : M Z :=
  if 8 <? len then ret SENTINEL
  else
    _set_mask (to_int filter) ;;
    (if mode =? CALL_AND_RESP
     then
       d <- defined (copy_bytes payload len
                       (CANMessage.data CANMessage.default)) ;;
       transmit {| CANMessage.id := header;
                   CANMessage.len := to_uint8 len;
                   CANMessage.rtr := frame;
                   CANMessage.data := d |}
     else ret tt) ;;
    e <- errorStatus ;;
    if e =? CAN_NO_ERROR
    then
      t_stamp <- millis ;;
      wait_loop fuel self t_stamp
    else
      transmit (CANMessage.set_id CANMessage.default
                  (to_uint32 (_node_id self))) ;;
      _set_mask_default self ;;
      ret SENTINEL.

(** [CANTelemetry::poll(header, mode, frame, payload, len)] *)
Definition poll_header (fuel : nat) (self : CANTelemetry) (header mode : Z)
  (frame : bool) (payload : list byte) (len : Z) : M Z :=
  poll fuel self header header mode frame payload len.

(** *** The course of a wait *)

(** The time stamp a poll started in world [w] takes before its loop. *)
Definition time_stamp (w : World) : Z :=
  to_ulong (millis_at env (clock_reads w)).

(** Time elapsed since [t_stamp], as the loop computes it from the clock
    reading number [c]. *)
Definition elapsed (t_stamp : Z) (c : nat) : Z :=
  to_ulong (to_ulong (millis_at env c) - t_stamp).

(** The [k] iterations that start with receive number [r0] and clock
    reading number [c0] neither receive a frame nor time out. *)
Definition silent (self : CANTelemetry) (t_stamp : Z) (r0 c0 k : nat)
  : Prop :=
  forall j : nat, (j < k)%nat ->
    receive_at env (r0 + j) = None
    /\ elapsed t_stamp (c0 + j) < _timeout self.

(** The payload is long enough for the copy a call-and-response poll
    makes. *)
Definition payload_ok (mode : Z) (payload : list byte) (len : Z) : Prop :=
  mode = CALL_AND_RESP -> (Z.to_nat len <= length payload)%nat.

End Telemetry.

(** ** What a poll leaves on the bus *)

(** The filter installed outside a poll: the node's identifier, matched
    exactly. *)
Definition default_filter (self : CANTelemetry) : list (Z * Z) :=
  [(_node_id self, 0x7FF)].

(** The query frame of a call-and-response poll: the first [len] payload
    bytes, the rest of the data zero. *)
Definition request_frame (header : Z) (frame : bool) (payload : list byte)
  (len : Z) : CANMessage.t :=
  {| CANMessage.id := header;
     CANMessage.len := to_uint8 len;
     CANMessage.rtr := frame;
     CANMessage.data :=
       take (Z.to_nat len) payload ++ replicate (8 - Z.to_nat len) x00 |}.

(** The frame sent when the bus reports an error. *)
Definition diagnostic_frame (self : CANTelemetry) : CANMessage.t :=
  {| CANMessage.id := to_uint32 (_node_id self);
     CANMessage.len := 0;
     CANMessage.rtr := false;
     CANMessage.data := replicate 8 x00 |}.

(** The calls of a poll up to the error check, the check excluded. *)
Definition request_calls (CALL_AND_RESP header filter mode : Z) (frame : bool)
  (payload : list byte) (len : Z) : list bus_call :=
  [ClearFilters; AddFilter (to_int filter) 0x7FF]
  ++ (if mode =? CALL_AND_RESP
      then [Transmit (request_frame header frame payload len)]
      else []).

(** The calls that put the default filter back. *)
Definition restore_calls (self : CANTelemetry) : list bus_call :=
  [ClearFilters; AddFilter (_node_id self) 0x7FF].

(** A world reached from [w]: new filters, more calls, more answers
    consumed. *)
Definition advance (w : World) (fs : list (Z * Z)) (cs : list bus_call)
  (e r c : nat) : World :=
  {| filters := fs; calls := calls w ++ cs;
     errors_read := (errors_read w + e)%nat;
     receives := (receives w + r)%nat;
     clock_reads := (clock_reads w + c)%nat |}.

(** ** Scenarios *)

(** Node [0x100] with a timeout of 50 ms, its default filter installed. *)
Definition node : CANTelemetry :=
  {| _baud_rate := 500000; _node_id := 0x100; _timeout := 50;
     _debug := false |}.

Definition idle : World :=
  {| filters := [(0x100, 0x7FF)]; calls := []; errors_read := 0;
     receives := 0; clock_reads := 0 |}.

Definition frame_42 : CANMessage.t :=
  {| CANMessage.id := 0x200; CANMessage.len := 8; CANMessage.rtr := false;
     CANMessage.data := [x2a; x00; x00; x00; x00; x00; x00; x00] |}.

(** The clock advances 10 ms per reading. *)
Definition clock (n : nat) : Z := 10 * Z.of_nat n.

(** A healthy bus on which the third receive delivers [frame_42]. *)
Definition answering : Env :=
  {| errorStatus_at := fun _ => 0;
     receive_at := fun n => if (n =? 2)%nat then Some frame_42 else None;
     millis_at := clock |}.

(** A healthy bus on which nothing arrives. *)
Definition mute : Env :=
  {| errorStatus_at := fun _ => 0;
     receive_at := fun _ => None;
     millis_at := clock |}.

(** A bus in error. *)
Definition faulty : Env :=
  {| errorStatus_at := fun _ => 1;
     receive_at := fun _ => None;
     millis_at := clock |}.

(** A healthy bus on which every receive delivers [frame_42]. *)
Definition chatty : Env :=
  {| errorStatus_at := fun _ => 0;
     receive_at := fun _ => Some frame_42;
     millis_at := clock |}.

(** ** The states a caller can reach *)

(** The object and the world after a construction with identifier
    [node_id], followed by any number of returned polls (either overload)
    and timeout changes. *)
Inductive reachable (CALL_AND_RESP CAN_NO_ERROR : Z) (env : Env)
  (node_id : Z) : CANTelemetry -> World -> Prop :=
  | reach_new (baud_rate timeout : Z) (debug : bool) (w0 : World)
      (self : CANTelemetry) (w : World) :
      CANTelemetry_new baud_rate node_id timeout debug w0 = Returns self w ->
      reachable CALL_AND_RESP CAN_NO_ERROR env node_id self w
  | reach_poll (self : CANTelemetry) (w : World) (fuel : nat)
      (header filter mode : Z) (frame : bool) (payload : list byte) (len : Z)
      (v : Z) (w' : World) :
      reachable CALL_AND_RESP CAN_NO_ERROR env node_id self w ->
      poll CALL_AND_RESP CAN_NO_ERROR env fuel self header filter mode frame
        payload len w = Returns v w' ->
      reachable CALL_AND_RESP CAN_NO_ERROR env node_id self w'
  | reach_poll_header (self : CANTelemetry) (w : World) (fuel : nat)
      (header mode : Z) (frame : bool) (payload : list byte) (len : Z)
      (v : Z) (w' : World) :
      reachable CALL_AND_RESP CAN_NO_ERROR env node_id self w ->
      poll_header CALL_AND_RESP CAN_NO_ERROR env fuel self header mode frame
        payload len w = Returns v w' ->
      reachable CALL_AND_RESP CAN_NO_ERROR env node_id self w'
  | reach_change_timeout (self : CANTelemetry) (w : World) (timeout : Z) :
      reachable CALL_AND_RESP CAN_NO_ERROR env node_id self w ->
      reachable CALL_AND_RESP CAN_NO_ERROR env node_id
        (change_timeout self timeout) w.

(** ** Bytes of a value *)

(** The byte of value [z mod 2^8]. *)
Definition byte_of (z : Z) : byte :=
  match Byte.of_N (Z.to_N (z mod 2 ^ 8)) with
  | Some b => b
  | None => x00
  end.

(** The [count] low-order bytes of [v], least significant first. *)
Fixpoint le_bytes (count : nat) (v : Z) : list byte :=
  match count with
  | O => []
  | S count' => byte_of v :: le_bytes count' (v / 2 ^ 8)
  end.


(** A healthy bus on which nothing arrives, with a clock that wraps between
    its first and its second reading, 60 ms apart. *)
Definition wrapping : Env :=
  {| errorStatus_at := fun _ => 0;
     receive_at := fun _ => None;
     millis_at := fun n => 4294967290 + 60 * Z.of_nat n |}.

(** * Examples *)

Example decode_42 :
  _decode [x2a; x00; x00; x00; x00; x00; x00; x00] 8 = Some 42.
Proof. reflexivity. Qed.

Example decode_2 : _decode [x01; x02; xff] 2 = Some 513.
Proof. reflexivity. Qed.

Example decode_9 : _decode (replicate 9 x01) 9 = None.
Proof. reflexivity. Qed.

Example decode_neg : _decode [x01] (-3) = Some 0.
Proof. reflexivity. Qed.

(** * Properties of the decoder *)

Section Decode.

Implicit Types (b : byte) (src dst arr n : list byte).

Lemma byte_val_range b : 0 <= byte_val b < 2 ^ 8.
Proof.
  unfold byte_val. pose proof (Byte.to_N_bounded b). change (2 ^ 8) with 256.
  lia.
Qed.

Lemma byte_val_inj b1 b2 : byte_val b1 = byte_val b2 -> b1 = b2.
Proof.
  unfold byte_val. intros H. apply N2Z.inj in H.
  pose proof (Byte.of_to_N b1) as H1. rewrite H, Byte.of_to_N in H1.
  congruence.
Qed.

(** The copy loop overwrites exactly the positions [i .. i + count). *)
Lemma copy_loop_spec src count : forall i dst,
  (i + count <= length src)%nat ->
  (i + count <= length dst)%nat ->
  copy_loop src count i dst
  = Some (take i dst ++ take count (drop i src) ++ drop (i + count) dst).
Proof.
  induction count as [|count IH]; intros i dst Hsrc Hdst; simpl.
  - rewrite Nat.add_0_r, take_drop. reflexivity.
  - destruct (lookup_lt_is_Some_2 src i) as [b Hb]; [lia|].
    rewrite Hb. destruct (decide (i < length dst)%nat) as [Hi|]; [|lia].
    rewrite IH by (rewrite ?length_insert; lia).
    f_equal.
    rewrite (take_S_r _ i b) by (apply list_lookup_insert_eq; exact Hi).
    rewrite take_insert_ge by lia.
    rewrite drop_insert_lt by lia.
    rewrite (drop_S src b i Hb). simpl.
    rewrite <- app_assoc. simpl.
    replace (S (i + count)) with (i + S count)%nat by lia. reflexivity.
Qed.

(** Outside its bounds the loop has no result. *)
Lemma copy_loop_overrun src count i dst :
  (length dst < i + count)%nat -> (0 < count)%nat ->
  copy_loop src count i dst = None.
Proof.
  revert i dst. induction count as [|count IH]; intros i dst Hlen Hpos;
    [lia|]. simpl.
  destruct (src !! i) as [b|]; [|reflexivity].
  destruct (decide (i < length dst)%nat) as [Hi|]; [|reflexivity].
  apply IH; [rewrite length_insert; lia|].
  lia.
Qed.

Lemma copy_bytes_spec src len dst :
  (Z.to_nat len <= length src)%nat ->
  (Z.to_nat len <= length dst)%nat ->
  copy_bytes src len dst
  = Some (take (Z.to_nat len) src ++ drop (Z.to_nat len) dst).
Proof.
  intros Hsrc Hdst. unfold copy_bytes.
  rewrite copy_loop_spec by (simpl; lia). reflexivity.
Qed.

Lemma length_copy_bytes src len dst d :
  copy_bytes src len dst = Some d -> length d = length dst.
Proof.
  unfold copy_bytes. generalize 0%nat as i. revert dst.
  induction (Z.to_nat len) as [|count IH]; intros dst i; simpl.
  - congruence.
  - destruct (src !! i); [|discriminate].
    destruct (decide _); [|discriminate].
    intros H. apply IH in H. rewrite length_insert in H. exact H.
Qed.

Lemma le_value_app n1 n2 :
  le_value (n1 ++ n2)
  = le_value n1 + 2 ^ (8 * Z.of_nat (length n1)) * le_value n2.
Proof.
  induction n1 as [|b n1 IH]; simpl le_value.
  - simpl. lia.
  - rewrite IH. rewrite length_cons, Nat2Z.inj_succ.
    replace (8 * Z.succ (Z.of_nat (length n1)))
      with (8 + 8 * Z.of_nat (length n1)) by lia.
    rewrite Z.pow_add_r by lia. ring.
Qed.

Lemma le_value_zero k : le_value (replicate k x00) = 0.
Proof. induction k as [|k IH]; simpl; [reflexivity|]. rewrite IH. reflexivity. Qed.

Lemma le_value_range n : 0 <= le_value n < 2 ^ (8 * Z.of_nat (length n)).
Proof.
  induction n as [|b n IH]; simpl le_value.
  - simpl. lia.
  - rewrite length_cons, Nat2Z.inj_succ.
    replace (8 * Z.succ (Z.of_nat (length n)))
      with (8 + 8 * Z.of_nat (length n)) by lia.
    rewrite Z.pow_add_r by lia.
    pose proof (byte_val_range b). nia.
Qed.

Lemma le_value_inj n1 : forall n2,
  length n1 = length n2 -> le_value n1 = le_value n2 -> n1 = n2.
Proof.
  induction n1 as [|b1 n1 IH]; intros [|b2 n2] Hlen Hval;
    try discriminate; [reflexivity|].
  simpl in Hval, Hlen.
  pose proof (byte_val_range b1). pose proof (byte_val_range b2).
  assert (byte_val b1 = byte_val b2 /\ le_value n1 = le_value n2)
    as [Hb Hn] by lia.
  f_equal; [apply byte_val_inj; exact Hb | apply IH; [lia | exact Hn]].
Qed.

(** The sum in words is the little-endian value of the prefix. *)
Lemma le_sum_shift b arr k :
  foldr Z.add 0
    (map (fun i => byte_at (b :: arr) i * 2 ^ (8 * Z.of_nat i)) (seq 1 k))
  = 2 ^ 8 * le_sum arr k.
Proof.
  unfold le_sum. rewrite <- (fmap_S_seq 0 k).
  change (map ?f (S <$> ?l)) with (map f (map S l)). rewrite map_map.
  induction (seq 0 k) as [|i l IH]; simpl foldr; [lia|].
  change (foldr Z.add 0 (map ?f l)) with (foldr Z.add 0 (map f l)) in IH.
  simpl map in IH |- *. rewrite IH.
  change (byte_at (b :: arr) (S i)) with (byte_at arr i).
  rewrite Nat2Z.inj_succ.
  replace (8 * Z.succ (Z.of_nat i)) with (8 + 8 * Z.of_nat i) by lia.
  rewrite Z.pow_add_r by lia. ring.
Qed.

Lemma le_sum_take arr : forall k,
  (k <= length arr)%nat -> le_sum arr k = le_value (take k arr).
Proof.
  induction arr as [|b arr IH]; intros [|k] Hk; simpl in Hk;
    try reflexivity; [lia|].
  unfold le_sum. simpl seq. simpl map. simpl foldr.
  change (foldr Z.add 0 (map ?f (seq 1 k)))
    with (foldr Z.add 0 (map f (seq 1 k))).
  rewrite le_sum_shift, IH by lia.
  simpl. unfold byte_at. simpl. lia.
Qed.

(** What [_decode] computes when its accesses are in bounds. *)
Lemma decode_value arr len :
  len <= 8 -> (Z.to_nat len <= length arr)%nat ->
  _decode arr len = Some (le_value (take (Z.to_nat len) arr)).
Proof.
  intros Hlen Harr. unfold _decode, zero_buffer.
  rewrite copy_bytes_spec by (rewrite ?length_replicate; lia).
  rewrite le_value_app, drop_replicate, le_value_zero. f_equal. lia.
Qed.

(** Above 8 the copy would overrun the buffer. *)
Lemma decode_overrun arr len : 8 < len -> _decode arr len = None.
Proof.
  intros Hlen. unfold _decode, copy_bytes.
  rewrite copy_loop_overrun; [reflexivity | simpl; lia | lia].
Qed.

End Decode.

(** C3: for a length in [0,8] and an array holding at least that many
    bytes, [_decode] returns -- it is total there and, being a function of
    its arguments alone, pure -- the little-endian packing of the first
    [len] bytes: the sum over [i < len] of [arr[i] * 2^(8*i)], a value that
    fits 64 bits with the unused high-order bytes zero. *)
Theorem decode_little_endian (arr : list byte) (len : Z) :
  0 <= len <= 8 ->
  (Z.to_nat len <= length arr)%nat ->
  _decode arr len = Some (le_sum arr (Z.to_nat len))
  /\ 0 <= le_sum arr (Z.to_nat len) < 2 ^ 64
  /\ le_sum arr (Z.to_nat len) / 2 ^ (8 * len) = 0.
Proof.
  intros Hlen Harr.
  rewrite le_sum_take by exact Harr.
  pose proof (le_value_range (take (Z.to_nat len) arr)) as Hr.
  rewrite length_take_le, Z2Nat.id in Hr by lia.
  split; [apply decode_value; lia|].
  split.
  - assert (2 ^ (8 * len) <= 2 ^ 64) by (apply Z.pow_le_mono_r; lia). lia.
  - apply Z.div_small. exact Hr.
Qed.

Lemma decode_little_endian_witness :
  _decode [x01; x02; xff] 2 = Some (le_sum [x01; x02; xff] 2)
  /\ 0 <= le_sum [x01; x02; xff] 2 < 2 ^ 64
  /\ le_sum [x01; x02; xff] 2 / 2 ^ (8 * 2) = 0.
Proof.
  apply (decode_little_endian [x01; x02; xff] 2); [lia | simpl; lia].
Defined.

(** C7: for a fixed length in [0,8], [_decode] is injective on the byte
    sequences of that length, and decoding zero bytes of any array gives
    0. *)
Theorem decode_injective (len : Z) (arr1 arr2 : list byte) :
  0 <= len <= 8 ->
  length arr1 = Z.to_nat len ->
  length arr2 = Z.to_nat len ->
  (_decode arr1 len = _decode arr2 len -> arr1 = arr2)
  /\ (forall arr : list byte, _decode arr 0 = Some 0).
Proof.
  intros Hlen H1 H2. split; [|reflexivity].
  rewrite !decode_value by lia.
  rewrite <- H1 at 1. rewrite <- H2 at 1. rewrite !firstn_all.
  intros H. apply le_value_inj; congruence.
Qed.

Lemma decode_injective_witness :
  (_decode [x01; x02] 2 = _decode [x01; x02] 2 -> [x01; x02] = [x01; x02])
  /\ (forall arr : list byte, _decode arr 0 = Some 0).
Proof.
  apply (decode_injective 2 [x01; x02] [x01; x02]);
    [lia | reflexivity | reflexivity].
Defined.

(** C10: for a length in [0,8], the decoded value is strictly below
    [2^(8*len)]; so a response of at most 7 bytes never decodes to the
    sentinel, which only an 8-byte payload can collide with (and the
    all-ones one does). *)
Theorem decode_below_sentinel (arr : list byte) (len : Z) :
  0 <= len <= 8 ->
  (Z.to_nat len <= length arr)%nat ->
  (exists v, _decode arr len = Some v
             /\ 0 <= v < 2 ^ (8 * len)
             /\ (len <= 7 -> v <> SENTINEL))
  /\ _decode (replicate 8 xff) 8 = Some SENTINEL.
Proof.
  intros Hlen Harr. split; [|reflexivity].
  exists (le_value (take (Z.to_nat len) arr)).
  pose proof (le_value_range (take (Z.to_nat len) arr)) as Hr.
  rewrite length_take_le, Z2Nat.id in Hr by lia.
  split; [apply decode_value; lia|].
  split; [exact Hr|].
  intros H7.
  assert (2 ^ (8 * len) <= 2 ^ 56) by (apply Z.pow_le_mono_r; lia).
  change SENTINEL with 18446744073709551615.
  change (2 ^ 56) with 72057594037927936 in *. lia.
Qed.

Lemma decode_below_sentinel_witness :
  (exists v, _decode (replicate 7 xff) 7 = Some v
             /\ 0 <= v < 2 ^ (8 * 7)
             /\ (7 <= 7 -> v <> SENTINEL))
  /\ _decode (replicate 8 xff) 8 = Some SENTINEL.
Proof.
  apply (decode_below_sentinel (replicate 7 xff) 7); [lia | simpl; lia].
Defined.

(** * Properties of [poll] *)

Lemma world_eq (fs fs' : list (Z * Z)) (cs cs' : list bus_call)
  (e e' r r' c c' : nat) :
  fs = fs' -> cs = cs' -> e = e' -> r = r' -> c = c' ->
  {| filters := fs; calls := cs; errors_read := e; receives := r;
     clock_reads := c |}
  = {| filters := fs'; calls := cs'; errors_read := e'; receives := r';
       clock_reads := c' |}.
Proof. intros; subst; reflexivity. Qed.

Lemma replicate_shift {A} (k : nat) (x : A) (l : list A) :
  replicate k x ++ x :: l = x :: replicate k x ++ l.
Proof. induction k as [|k IH]; simpl; [reflexivity|]. rewrite IH. reflexivity. Qed.

Ltac run :=
  unfold _set_mask_default, _set_mask, bind, clearFilters, addFilter,
    transmit, errorStatus, millis, receive, ret, defined, log, with_filters;
  simpl.

Ltac same_world :=
  unfold advance; simpl;
  apply world_eq;
  [ reflexivity
  | rewrite <- ?app_assoc; simpl; rewrite <- ?app_assoc; reflexivity
  | lia | lia | lia ].

Section PollProperties.

Variables CALL_AND_RESP CAN_NO_ERROR : Z.
Variable env : Env.
Variable self : CANTelemetry.

Local Abbreviation wait_loop' := (wait_loop env).
Local Abbreviation poll' := (poll CALL_AND_RESP CAN_NO_ERROR env).

(** Putting the default filter back. *)
Lemma set_mask_default_run (w : World) :
  _set_mask_default self w
  = Returns tt (advance w (default_filter self) (restore_calls self) 0 0 0).
Proof. run. f_equal. same_world. Qed.

(** Every return of the loop is preceded by a filter restoration. *)
Lemma wait_loop_filters (fuel : nat) : forall (t_stamp : Z) (w : World) v w',
  wait_loop' fuel self t_stamp w = Returns v w' ->
  filters w' = default_filter self.
Proof.
  induction fuel as [|fuel IH]; intros t_stamp w v w'; simpl; [discriminate|].
  run. destruct (receive_at env (receives w)) as [r|].
  - destruct (_decode _ _); [|discriminate].
    intros [= _ <-]. reflexivity.
  - destruct (_timeout self <=? _).
    + intros [= _ <-]. reflexivity.
    + apply IH.
Qed.

(** The loop only makes receive attempts, then restores the filter. *)
Lemma wait_loop_calls (fuel : nat) : forall (t_stamp : Z) (w : World) v w',
  wait_loop' fuel self t_stamp w = Returns v w' ->
  exists n : nat,
    calls w' = calls w ++ replicate (S n) Receive ++ restore_calls self.
Proof.
  induction fuel as [|fuel IH]; intros t_stamp w v w'; simpl; [discriminate|].
  run. destruct (receive_at env (receives w)) as [r|].
  - destruct (_decode _ _); [|discriminate].
    intros [= _ <-]. exists 0%nat. simpl. rewrite <- !app_assoc. reflexivity.
  - destruct (_timeout self <=? _).
    + intros [= _ <-]. exists 0%nat. simpl. rewrite <- !app_assoc.
      reflexivity.
    + intros H. apply IH in H as [n Hn]. exists (S n). rewrite Hn. simpl.
      rewrite <- !app_assoc. reflexivity.
Qed.

(** Iterations that see no frame and no timeout only log their receive
    attempts. *)
Lemma wait_loop_silent (t_stamp : Z) (k : nat) : forall (fuel : nat) w,
  silent env self t_stamp (receives w) (clock_reads w) k ->
  wait_loop' (k + fuel) self t_stamp w
  = wait_loop' fuel self t_stamp
      (advance w (filters w) (replicate k Receive) 0 k k).
Proof.
  induction k as [|k IH]; intros fuel w Hs.
  - simpl. f_equal. destruct w. unfold advance; simpl.
    apply world_eq; [reflexivity | symmetry; apply app_nil_r | lia..].
  - destruct (Hs 0%nat ltac:(lia)) as [Hr Ht]. unfold elapsed in Ht.
    rewrite !Nat.add_0_r in *.
    change (S k + fuel)%nat with (S (k + fuel)). simpl wait_loop. run.
    rewrite Hr. simpl.
    destruct (Z.leb_spec (_timeout self)
                (to_ulong (to_ulong (millis_at env (clock_reads w)) - t_stamp)))
      as [Hle|_]; [lia|].
    rewrite IH.
    + f_equal. same_world.
    + intros j Hj. destruct (Hs (S j) ltac:(lia)) as [Hr' Ht'].
      unfold elapsed in *. simpl.
      rewrite <- !Nat.add_succ_comm in *. split; assumption.
Qed.

(** The iteration that receives a frame. *)
Lemma wait_loop_frame (t_stamp : Z) (fuel : nat) (w : World)
  (r : CANMessage.t) :
  receive_at env (receives w) = Some r ->
  wait_loop' (S fuel) self t_stamp w
  = match _decode (CANMessage.data r) (CANMessage.len r) with
    | Some v =>
        Returns v
          (advance w (default_filter self) (Receive :: restore_calls self)
             0 1 0)
    | None => Undefined
    end.
Proof.
  intros Hr. simpl. run. rewrite Hr. simpl.
  destruct (_decode _ _); [|reflexivity].
  f_equal. same_world.
Qed.

(** The iteration that times out. *)
Lemma wait_loop_timeout (t_stamp : Z) (fuel : nat) (w : World) :
  receive_at env (receives w) = None ->
  _timeout self <= elapsed env t_stamp (clock_reads w) ->
  wait_loop' (S fuel) self t_stamp w
  = Returns SENTINEL
      (advance w (default_filter self) (Receive :: restore_calls self)
         0 1 1).
Proof.
  intros Hr Ht. unfold elapsed in Ht.
  simpl. run. rewrite Hr. simpl.
  destruct (Z.leb_spec (_timeout self)
              (to_ulong (to_ulong (millis_at env (clock_reads w)) - t_stamp)))
    as [_|Hlt]; [|lia].
  f_equal. same_world.
Qed.

(** A well-formed frame always decodes. *)
Lemma decode_well_formed (r : CANMessage.t) :
  CANMessage.well_formed r ->
  _decode (CANMessage.data r) (CANMessage.len r)
  = Some (le_sum (CANMessage.data r) (Z.to_nat (CANMessage.len r))).
Proof.
  intros [Hd Hl].
  rewrite decode_value, le_sum_take by (rewrite ?Hd; lia). reflexivity.
Qed.

(** A poll up to its error check. *)
Lemma poll_request (fuel : nat) (header filter mode : Z) (frame : bool)
  (payload : list byte) (len : Z) (w : World) :
  len <= 8 ->
  payload_ok CALL_AND_RESP mode payload len ->
  poll' fuel self header filter mode frame payload len w
  = if errorStatus_at env (errors_read w) =? CAN_NO_ERROR
    then
      wait_loop' fuel self (time_stamp env w)
        (advance w [(to_int filter, 0x7FF)]
           (request_calls CALL_AND_RESP header filter mode frame payload len
            ++ [ErrorStatus]) 1 0 1)
    else
      Returns SENTINEL
        (advance w (default_filter self)
           (request_calls CALL_AND_RESP header filter mode frame payload len
            ++ [ErrorStatus; Transmit (diagnostic_frame self)]
            ++ restore_calls self) 1 0 0).
Proof.
  intros Hlen Hpay. unfold poll, request_calls, time_stamp.
  destruct (Z.ltb_spec 8 len) as [|_]; [lia|].
  destruct (Z.eqb_spec mode CALL_AND_RESP) as [Hm|Hm].
  - assert (copy_bytes payload len (CANMessage.data CANMessage.default)
            = Some (take (Z.to_nat len) payload
                    ++ replicate (8 - Z.to_nat len) x00)) as Hcopy.
    { unfold CANMessage.default, CANMessage.data.
      specialize (Hpay Hm).
      rewrite copy_bytes_spec, drop_replicate;
        [reflexivity | exact Hpay | rewrite length_replicate; lia]. }
    unfold bind, defined. rewrite Hcopy. run.
    destruct (errorStatus_at env (errors_read w) =? CAN_NO_ERROR).
    + f_equal. same_world.
    + f_equal. same_world.
  - run.
    destruct (errorStatus_at env (errors_read w) =? CAN_NO_ERROR).
    + f_equal. same_world.
    + f_equal. same_world.
Qed.

(** The loop returns as soon as a frame arrives or the time is up: with
    well-formed frames, [S k] iterations are enough when that happens at
    iteration [k] at the latest. *)
Lemma wait_loop_returns (t_stamp : Z) (k : nat) : forall w : World,
  (forall n r, receive_at env n = Some r -> CANMessage.well_formed r) ->
  receive_at env (receives w + k) <> None
  \/ _timeout self <= elapsed env t_stamp (clock_reads w + k) ->
  exists v w', wait_loop' (S k) self t_stamp w = Returns v w'.
Proof.
  induction k as [|k IH]; intros w Hwf Hstop.
  - rewrite !Nat.add_0_r in Hstop.
    destruct (receive_at env (receives w)) as [r|] eqn:Hr.
    + rewrite (wait_loop_frame _ _ _ r Hr), (decode_well_formed r (Hwf _ _ Hr)).
      eauto.
    + destruct Hstop as [|Ht]; [congruence|].
      rewrite (wait_loop_timeout _ _ _ Hr Ht). eauto.
  - destruct (receive_at env (receives w)) as [r|] eqn:Hr.
    + rewrite (wait_loop_frame _ _ _ r Hr), (decode_well_formed r (Hwf _ _ Hr)).
      eauto.
    + destruct (Z.le_gt_cases (_timeout self) (elapsed env t_stamp (clock_reads w)))
        as [Ht|Ht].
      * rewrite (wait_loop_timeout _ _ _ Hr Ht). eauto.
      * change (S (S k)) with (1 + S k)%nat.
        rewrite wait_loop_silent.
        -- apply IH; [exact Hwf|]. simpl.
           rewrite <- !Nat.add_assoc. exact Hstop.
        -- intros j Hj. assert (j = 0%nat) as -> by lia.
           rewrite !Nat.add_0_r. split; assumption.
Qed.

(** A poll returns: its accesses in bounds, the frames of the bus
    well-formed, and a frame or the timeout reached at some iteration,
    there is a fuel for which the outcome is a return. *)
Lemma poll_returns (header filter mode : Z) (frame : bool)
  (payload : list byte) (len : Z) (w : World) (k : nat) :
  len <= 8 ->
  payload_ok CALL_AND_RESP mode payload len ->
  (forall n r, receive_at env n = Some r -> CANMessage.well_formed r) ->
  receive_at env (receives w + k) <> None
  \/ _timeout self <= elapsed env (time_stamp env w) (S (clock_reads w) + k) ->
  exists v w',
    poll' (S k) self header filter mode frame payload len w = Returns v w'.
Proof.
  intros Hlen Hpay Hwf Hstop. rewrite (poll_request _ _ _ _ _ _ _ _ Hlen Hpay).
  destruct (errorStatus_at env (errors_read w) =? CAN_NO_ERROR); [|eauto].
  apply wait_loop_returns; [exact Hwf|]. simpl.
  rewrite Nat.add_0_r, Nat.add_1_r. exact Hstop.
Qed.

End PollProperties.

(** Construction leaves the default filter installed, and a changed
    timeout is the one later polls use. *)
Lemma CANTelemetry_new_filters (baud_rate node_id timeout : Z)
  (debug : bool) (w : World) :
  exists self w',
    CANTelemetry_new baud_rate node_id timeout debug w = Returns self w'
    /\ _node_id self = node_id
    /\ _timeout self = to_ulong timeout
    /\ filters w' = default_filter self.
Proof. destruct debug; eexists _, _; (split; [reflexivity|]); auto. Qed.

Lemma change_timeout_timeout (self : CANTelemetry) (timeout : Z) :
  _timeout (change_timeout self timeout) = to_ulong timeout
  /\ _node_id (change_timeout self timeout) = _node_id self.
Proof. split; reflexivity. Qed.

Section PollClaims.

Variables CALL_AND_RESP PASSIVE_POLL CAN_NO_ERROR : Z.
Variable env : Env.
Variable self : CANTelemetry.

Local Abbreviation poll' := (poll CALL_AND_RESP CAN_NO_ERROR env).
Local Abbreviation request_calls' := (request_calls CALL_AND_RESP).

(** C1: a poll whose length is in [0,8] leaves, on every return -- a frame
    was received, the wait timed out, or the bus reported an error -- one
    filter installed on the bus, [(node identifier, 0x7FF)]; and it does
    return, with that filter, once a frame arrives or the time is up. *)
Theorem poll_restores_default_filter (header filter mode : Z)
  (frame : bool) (payload : list byte) (len : Z) (w : World) :
  0 <= len <= 8 ->
  (forall (fuel : nat) (v : Z) (w' : World),
     poll' fuel self header filter mode frame payload len w = Returns v w' ->
     filters w' = [(_node_id self, 0x7FF)])
  /\ (forall k : nat,
        payload_ok CALL_AND_RESP mode payload len ->
        (forall n r, receive_at env n = Some r -> CANMessage.well_formed r) ->
        receive_at env (receives w + k) <> None
        \/ _timeout self
           <= elapsed env (time_stamp env w) (S (clock_reads w) + k) ->
        exists (v : Z) (w' : World),
          poll' (S k) self header filter mode frame payload len w
          = Returns v w'
          /\ filters w' = [(_node_id self, 0x7FF)]).
Proof.
  intros Hlen.
  assert (forall (fuel : nat) (v : Z) (w' : World),
            poll' fuel self header filter mode frame payload len w
            = Returns v w' ->
            filters w' = [(_node_id self, 0x7FF)]) as Hfilter.
  { intros fuel v w'. unfold poll.
    destruct (Z.ltb_spec 8 len) as [|_]; [lia|].
    destruct (mode =? CALL_AND_RESP).
    - unfold bind at 3. unfold defined.
      destruct (copy_bytes payload len _) as [d|]; [|run; discriminate].
      run. destruct (errorStatus_at env (errors_read w) =? CAN_NO_ERROR).
      + apply wait_loop_filters.
      + intros [= _ <-]. reflexivity.
    - run. destruct (errorStatus_at env (errors_read w) =? CAN_NO_ERROR).
      + apply wait_loop_filters.
      + intros [= _ <-]. reflexivity. }
  split; [exact Hfilter|].
  intros k Hpay Hwf Hstop.
  destruct (poll_returns CALL_AND_RESP CAN_NO_ERROR env self header filter
              mode frame payload len w k (proj2 Hlen) Hpay Hwf Hstop)
    as (v & w' & Hrun).
  exists v, w'. split; [exact Hrun | exact (Hfilter _ _ _ Hrun)].
Qed.

(** C2, as the code has it: a poll with a length above 8 returns the
    sentinel at once and leaves the world as it was -- no call on the bus,
    no filter change, no answer consumed. *)
Theorem poll_rejects_long_payload (fuel : nat) (header filter mode : Z)
  (frame : bool) (payload : list byte) (len : Z) (w : World) :
  8 < len ->
  poll' fuel self header filter mode frame payload len w
  = Returns SENTINEL w
  /\ SENTINEL = 0xFFFFFFFFFFFFFFFF.
Proof.
  intros Hlen. unfold poll.
  destruct (Z.ltb_spec 8 len) as [_|]; [|lia].
  split; reflexivity.
Qed.

(** C4: when the error status read by a poll is not [CAN_NO_ERROR], the
    poll returns the sentinel whatever the fuel (no loop is entered); after
    the check it makes three calls: it transmits one frame whose identifier
    is the node's, then clears the filters and installs the default one.
    No receive is attempted and the clock is not read. *)
Theorem poll_bus_error (fuel : nat) (header filter mode : Z)
  (frame : bool) (payload : list byte) (len : Z) (w : World) :
  len <= 8 ->
  payload_ok CALL_AND_RESP mode payload len ->
  errorStatus_at env (errors_read w) <> CAN_NO_ERROR ->
  exists w' : World,
    poll' fuel self header filter mode frame payload len w
    = Returns SENTINEL w'
    /\ calls w'
       = calls w
         ++ request_calls' header filter mode frame payload len
         ++ [ErrorStatus; Transmit (diagnostic_frame self);
             ClearFilters; AddFilter (_node_id self) 0x7FF]
    /\ CANMessage.id (diagnostic_frame self) = to_uint32 (_node_id self)
    /\ (0 <= _node_id self < 2 ^ 32 ->
        CANMessage.id (diagnostic_frame self) = _node_id self)
    /\ existsb is_receive
         (request_calls' header filter mode frame payload len
          ++ [ErrorStatus; Transmit (diagnostic_frame self);
              ClearFilters; AddFilter (_node_id self) 0x7FF]) = false
    /\ filters w' = [(_node_id self, 0x7FF)]
    /\ receives w' = receives w
    /\ clock_reads w' = clock_reads w.
Proof.
  intros Hlen Hpay Herr.
  rewrite (poll_request _ _ _ _ _ _ _ _ _ _ _ _ Hlen Hpay).
  destruct (Z.eqb_spec (errorStatus_at env (errors_read w)) CAN_NO_ERROR)
    as [|_]; [contradiction|].
  eexists. split; [reflexivity|]. simpl.
  split; [reflexivity|]. split; [reflexivity|].
  split; [intros Hid; unfold to_uint32; apply Z.mod_small; exact Hid|].
  split; [unfold request_calls; destruct (mode =? CALL_AND_RESP); reflexivity|].
  repeat split; lia.
Qed.

(** C5: when the bus reports no error and the first frame is received at
    iteration [k] of the wait loop, before any timeout, the poll restores
    the default filter right after that receive and returns the decoded
    value of that frame, whatever the frame's identifier and content -- for
    the data [2A 00 00 00 00 00 00 00] of length 8, the value 42. *)
Theorem poll_returns_first_frame (fuel k : nat) (header filter mode : Z)
  (frame : bool) (payload : list byte) (len : Z) (w : World)
  (r : CANMessage.t) :
  0 <= len <= 8 ->
  payload_ok CALL_AND_RESP mode payload len ->
  errorStatus_at env (errors_read w) = CAN_NO_ERROR ->
  silent env self (time_stamp env w) (receives w) (S (clock_reads w)) k ->
  receive_at env (receives w + k) = Some r ->
  CANMessage.well_formed r ->
  (k < fuel)%nat ->
  exists (v : Z) (w' : World),
    poll' fuel self header filter mode frame payload len w = Returns v w'
    /\ _decode (CANMessage.data r) (CANMessage.len r) = Some v
    /\ v = le_sum (CANMessage.data r) (Z.to_nat (CANMessage.len r))
    /\ filters w' = [(_node_id self, 0x7FF)]
    /\ calls w'
       = calls w
         ++ request_calls' header filter mode frame payload len
         ++ [ErrorStatus] ++ replicate (S k) Receive
         ++ [ClearFilters; AddFilter (_node_id self) 0x7FF]
    /\ (CANMessage.data r = [x2a; x00; x00; x00; x00; x00; x00; x00] ->
        CANMessage.len r = 8 -> v = 42).
Proof.
  intros Hlen Hpay Herr Hsilent Hr Hwf Hfuel.
  rewrite (poll_request _ _ _ _ _ _ _ _ _ _ _ _ (proj2 Hlen) Hpay).
  rewrite Herr, Z.eqb_refl.
  replace fuel with (k + S (fuel - S k))%nat by lia.
  rewrite wait_loop_silent
    by (simpl; rewrite Nat.add_0_r, Nat.add_1_r; exact Hsilent).
  rewrite (wait_loop_frame _ _ _ _ _ r)
    by (simpl; rewrite Nat.add_0_r; exact Hr).
  rewrite (decode_well_formed r Hwf).
  eexists _, _. split; [reflexivity|].
  split; [reflexivity|]. split; [reflexivity|]. split; [reflexivity|].
  split.
  - simpl. repeat (rewrite <- app_assoc; simpl).
    rewrite replicate_shift. reflexivity.
  - intros -> ->. reflexivity.
Qed.

(** C6: when the bus reports no error and no frame has arrived by the
    iteration [k] at which the elapsed time reaches the timeout, the poll
    restores the default filter and returns the sentinel. *)
Theorem poll_times_out (fuel k : nat) (header filter mode : Z)
  (frame : bool) (payload : list byte) (len : Z) (w : World) :
  0 <= len <= 8 ->
  payload_ok CALL_AND_RESP mode payload len ->
  errorStatus_at env (errors_read w) = CAN_NO_ERROR ->
  silent env self (time_stamp env w) (receives w) (S (clock_reads w)) k ->
  receive_at env (receives w + k) = None ->
  _timeout self <= elapsed env (time_stamp env w) (S (clock_reads w) + k) ->
  (k < fuel)%nat ->
  exists w' : World,
    poll' fuel self header filter mode frame payload len w
    = Returns SENTINEL w'
    /\ SENTINEL = 0xFFFFFFFFFFFFFFFF
    /\ filters w' = [(_node_id self, 0x7FF)]
    /\ calls w'
       = calls w
         ++ request_calls' header filter mode frame payload len
         ++ [ErrorStatus] ++ replicate (S k) Receive
         ++ [ClearFilters; AddFilter (_node_id self) 0x7FF].
Proof.
  intros Hlen Hpay Herr Hsilent Hr Ht Hfuel.
  rewrite (poll_request _ _ _ _ _ _ _ _ _ _ _ _ (proj2 Hlen) Hpay).
  rewrite Herr, Z.eqb_refl.
  replace fuel with (k + S (fuel - S k))%nat by lia.
  rewrite wait_loop_silent
    by (simpl; rewrite Nat.add_0_r, Nat.add_1_r; exact Hsilent).
  rewrite wait_loop_timeout;
    [ | simpl; rewrite Nat.add_0_r; exact Hr
      | simpl; rewrite Nat.add_1_r; exact Ht ].
  eexists. split; [reflexivity|].
  split; [reflexivity|]. split; [reflexivity|].
  simpl. repeat (rewrite <- app_assoc; simpl).
  rewrite replicate_shift. reflexivity.
Qed.

(** C8: the overload without a filter is the full poll with the header as
    filter: same outcome -- returned value and resulting world, hence the
    same calls on the bus -- for every input. *)
Theorem poll_header_delegates (fuel : nat) (header mode : Z) (frame : bool)
  (payload : list byte) (len : Z) (w : World) :
  poll_header CALL_AND_RESP CAN_NO_ERROR env fuel self header mode frame
    payload len w
  = poll' fuel self header header mode frame payload len w.
Proof. reflexivity. Qed.

(** The frames among the receive attempts and the filter restoration:
    none. *)
Lemma transmitted_wait (n : nat) (node_id : Z) :
  transmitted (replicate n Receive ++ [ClearFilters; AddFilter node_id 0x7FF])
  = [].
Proof. induction n as [|n IH]; [reflexivity | exact IH]. Qed.

(** C9, as the code has it: a poll in passive mode with a length in [0,8]
    transmits nothing before its error check: its first calls are the
    filter installation and the check.  With no bus error the calls that
    follow are receive attempts and the filter restoration, and the poll
    transmits no frame at all; with a bus error they are the transmission
    of the diagnostic frame and the filter restoration. *)
Theorem passive_poll_calls (fuel : nat) (header filter : Z) (frame : bool)
  (payload : list byte) (len : Z) (w : World) (v : Z) (w' : World) :
  PASSIVE_POLL <> CALL_AND_RESP ->
  0 <= len <= 8 ->
  poll' fuel self header filter PASSIVE_POLL frame payload len w
  = Returns v w' ->
  exists rest : list bus_call,
    calls w'
    = calls w
      ++ [ClearFilters; AddFilter (to_int filter) 0x7FF; ErrorStatus] ++ rest
    /\ (errorStatus_at env (errors_read w) = CAN_NO_ERROR ->
        (exists n : nat,
           rest = replicate (S n) Receive
                  ++ [ClearFilters; AddFilter (_node_id self) 0x7FF])
        /\ transmitted
             ([ClearFilters; AddFilter (to_int filter) 0x7FF; ErrorStatus]
              ++ rest) = [])
    /\ (errorStatus_at env (errors_read w) <> CAN_NO_ERROR ->
        rest = [Transmit (diagnostic_frame self);
                ClearFilters; AddFilter (_node_id self) 0x7FF]).
Proof.
  intros Hmode Hlen.
  rewrite poll_request; [|lia|intros Hm; contradiction].
  unfold request_calls.
  destruct (Z.eqb_spec PASSIVE_POLL CALL_AND_RESP) as [|_]; [contradiction|].
  destruct (Z.eqb_spec (errorStatus_at env (errors_read w)) CAN_NO_ERROR)
    as [Herr|Herr].
  - intros H. apply wait_loop_calls in H as [n Hn].
    exists (replicate (S n) Receive ++ restore_calls self).
    split; [|split].
    + rewrite Hn. simpl. repeat (rewrite <- app_assoc; simpl). reflexivity.
    + intros _. split; [exists n; reflexivity|].
      apply (transmitted_wait (S n)).
    + intros Hne. contradiction.
  - intros [= _ <-].
    exists [Transmit (diagnostic_frame self);
            ClearFilters; AddFilter (_node_id self) 0x7FF].
    split; [|split].
    + simpl. repeat (rewrite <- app_assoc; simpl). reflexivity.
    + intros He. contradiction.
    + intros _. reflexivity.
Qed.

End PollClaims.

(** The scenarios take [CALL_AND_RESP = 0], [PASSIVE_POLL = 1] and
    [CAN_NO_ERROR = 0]. *)
Lemma poll_restores_default_filter_witness :
  exists (v : Z) (w' : World),
    poll 0 0 answering 3 node 0x200 0x200 0 false [x01; x02] 2 idle
    = Returns v w'
    /\ filters w' = [(_node_id node, 0x7FF)].
Proof.
  destruct (poll_restores_default_filter 0 0 answering node 0x200 0x200 0
              false [x01; x02] 2 idle ltac:(lia)) as [_ Hreturns].
  apply (Hreturns 2%nat).
  - intros _. simpl. lia.
  - intros n r. simpl. destruct (n =? 2)%nat; [|discriminate].
    intros [= <-]. split; [reflexivity | simpl; lia].
  - left. simpl. discriminate.
Defined.

Lemma poll_rejects_long_payload_witness :
  poll 0 0 answering 3 node 0x200 0x200 0 false (replicate 9 x01) 9 idle
  = Returns SENTINEL idle
  /\ SENTINEL = 0xFFFFFFFFFFFFFFFF.
Proof.
  apply (poll_rejects_long_payload 0 0 answering node 3 0x200 0x200 0 false
           (replicate 9 x01) 9 idle); lia.
Defined.

(** C2 as stated fails for a negative length: the guard lets [len = -1]
    through, the poll installs the filter, transmits a frame and returns
    the value received. *)
Lemma poll_negative_length_not_rejected :
  ~ (0 <= -1 <= 8)
  /\ poll 0 0 chatty 1 node 0x200 0x200 0 false [] (-1) idle
     = Returns 42
         {| filters := [(0x100, 0x7FF)];
            calls :=
              [ClearFilters; AddFilter 0x200 0x7FF;
               Transmit
                 {| CANMessage.id := 0x200; CANMessage.len := 255;
                    CANMessage.rtr := false;
                    CANMessage.data := replicate 8 x00 |};
               ErrorStatus; Receive;
               ClearFilters; AddFilter 0x100 0x7FF];
            errors_read := 1; receives := 1; clock_reads := 1 |}
  /\ poll 0 0 chatty 1 node 0x200 0x200 0 false [] (-1) idle
     <> Returns SENTINEL idle.
Proof.
  split; [lia|]. split; [vm_compute; reflexivity|].
  vm_compute. discriminate.
Qed.

Lemma poll_bus_error_witness :
  exists w' : World,
    poll 0 0 faulty 0 node 0x200 0x200 0 true [x01; x02] 2 idle
    = Returns SENTINEL w'
    /\ calls w'
       = calls idle
         ++ request_calls 0 0x200 0x200 0 true [x01; x02] 2
         ++ [ErrorStatus; Transmit (diagnostic_frame node);
             ClearFilters; AddFilter (_node_id node) 0x7FF]
    /\ CANMessage.id (diagnostic_frame node) = to_uint32 (_node_id node)
    /\ (0 <= _node_id node < 2 ^ 32 ->
        CANMessage.id (diagnostic_frame node) = _node_id node)
    /\ existsb is_receive
         (request_calls 0 0x200 0x200 0 true [x01; x02] 2
          ++ [ErrorStatus; Transmit (diagnostic_frame node);
              ClearFilters; AddFilter (_node_id node) 0x7FF]) = false
    /\ filters w' = [(_node_id node, 0x7FF)]
    /\ receives w' = receives idle
    /\ clock_reads w' = clock_reads idle.
Proof.
  apply (poll_bus_error 0 0 faulty node 0 0x200 0x200 0 true [x01; x02] 2
           idle).
  - lia.
  - intros _. simpl. lia.
  - simpl. lia.
Defined.

Lemma answering_silent :
  silent answering node (time_stamp answering idle) (receives idle)
    (S (clock_reads idle)) 2.
Proof.
  intros j Hj. destruct j as [|[|j]]; [split; reflexivity..|lia].
Defined.

Lemma poll_returns_first_frame_witness :
  exists (v : Z) (w' : World),
    poll 0 0 answering 3 node 0x200 0x200 0 false [x01; x02] 2 idle
    = Returns v w'
    /\ _decode (CANMessage.data frame_42) (CANMessage.len frame_42) = Some v
    /\ v = le_sum (CANMessage.data frame_42)
             (Z.to_nat (CANMessage.len frame_42))
    /\ filters w' = [(_node_id node, 0x7FF)]
    /\ calls w'
       = calls idle
         ++ request_calls 0 0x200 0x200 0 false [x01; x02] 2
         ++ [ErrorStatus] ++ replicate 3 Receive
         ++ [ClearFilters; AddFilter (_node_id node) 0x7FF]
    /\ (CANMessage.data frame_42 = [x2a; x00; x00; x00; x00; x00; x00; x00] ->
        CANMessage.len frame_42 = 8 -> v = 42).
Proof.
  apply (poll_returns_first_frame 0 0 answering node 3 2 0x200 0x200 0 false
           [x01; x02] 2 idle frame_42).
  - lia.
  - intros _. simpl. lia.
  - reflexivity.
  - exact answering_silent.
  - reflexivity.
  - split; [reflexivity | simpl; lia].
  - lia.
Defined.

Lemma mute_silent :
  silent mute node (time_stamp mute idle) (receives idle)
    (S (clock_reads idle)) 4.
Proof.
  intros j Hj. destruct j as [|[|[|[|j]]]]; [split; reflexivity..|lia].
Defined.

Lemma poll_times_out_witness :
  exists w' : World,
    poll 0 0 mute 5 node 0x200 0x200 0 false [x01; x02] 2 idle
    = Returns SENTINEL w'
    /\ SENTINEL = 0xFFFFFFFFFFFFFFFF
    /\ filters w' = [(_node_id node, 0x7FF)]
    /\ calls w'
       = calls idle
         ++ request_calls 0 0x200 0x200 0 false [x01; x02] 2
         ++ [ErrorStatus] ++ replicate 5 Receive
         ++ [ClearFilters; AddFilter (_node_id node) 0x7FF].
Proof.
  apply (poll_times_out 0 0 mute node 5 4 0x200 0x200 0 false [x01; x02] 2
           idle).
  - lia.
  - intros _. simpl. lia.
  - reflexivity.
  - exact mute_silent.
  - reflexivity.
  - vm_compute. discriminate.
  - lia.
Defined.

(** C9 as stated fails when the bus is in error: a passive poll then
    transmits the diagnostic frame. *)
Lemma passive_poll_transmits_on_bus_error :
  (1 <> 0 /\ 0 <= 0 <= 8)
  /\ poll 0 0 faulty 1 node 0x200 0x200 1 false [] 0 idle
     = Returns SENTINEL
         {| filters := [(0x100, 0x7FF)];
            calls :=
              [ClearFilters; AddFilter 0x200 0x7FF; ErrorStatus;
               Transmit
                 {| CANMessage.id := 0x100; CANMessage.len := 0;
                    CANMessage.rtr := false;
                    CANMessage.data := replicate 8 x00 |};
               ClearFilters; AddFilter 0x100 0x7FF];
            errors_read := 1; receives := 0; clock_reads := 0 |}
  /\ existsb is_transmit
       [ClearFilters; AddFilter 0x200 0x7FF; ErrorStatus;
        Transmit
          {| CANMessage.id := 0x100; CANMessage.len := 0;
             CANMessage.rtr := false;
             CANMessage.data := replicate 8 x00 |};
        ClearFilters; AddFilter 0x100 0x7FF] = true.
Proof.
  split; [lia|]. split; vm_compute; reflexivity.
Qed.

Lemma passive_poll_calls_witness :
  exists rest : list bus_call,
    [ClearFilters; AddFilter 0x200 0x7FF; ErrorStatus;
     Receive; Receive; Receive; ClearFilters; AddFilter 0x100 0x7FF]
    = calls idle
      ++ [ClearFilters; AddFilter (to_int 0x200) 0x7FF; ErrorStatus] ++ rest
    /\ (errorStatus_at answering (errors_read idle) = 0 ->
        (exists n : nat,
           rest = replicate (S n) Receive
                  ++ [ClearFilters; AddFilter (_node_id node) 0x7FF])
        /\ transmitted
             ([ClearFilters; AddFilter (to_int 0x200) 0x7FF; ErrorStatus]
              ++ rest) = [])
    /\ (errorStatus_at answering (errors_read idle) <> 0 ->
        rest = [Transmit (diagnostic_frame node);
                ClearFilters; AddFilter (_node_id node) 0x7FF]).
Proof.
  apply (passive_poll_calls 0 1 0 answering node 3 0x200 0x200 false [] 0 idle
           42
           {| filters := [(0x100, 0x7FF)];
              calls :=
                [ClearFilters; AddFilter 0x200 0x7FF; ErrorStatus;
                 Receive; Receive; Receive;
                 ClearFilters; AddFilter 0x100 0x7FF];
              errors_read := 1; receives := 3; clock_reads := 3 |}).
  - lia.
  - lia.
  - vm_compute. reflexivity.
Defined.

(** * Further properties of the decoder *)

Lemma byte_val_byte_of (z : Z) : byte_val (byte_of z) = z mod 2 ^ 8.
Proof.
  unfold byte_of, byte_val.
  pose proof (Z.mod_pos_bound z (2 ^ 8) ltac:(lia)) as Hz.
  change (2 ^ 8) with 256 in *.
  pose proof (Byte.to_of_N_option_map (Z.to_N (z mod 256))) as Hmap.
  destruct (Byte.of_N (Z.to_N (z mod 256))) as [b|] eqn:Hb.
  - apply Byte.to_of_N in Hb. rewrite Hb. lia.
  - simpl in Hmap.
    destruct (N.leb_spec (Z.to_N (z mod 256)) 255); [discriminate | lia].
Qed.

Lemma length_le_bytes (count : nat) : forall v : Z,
  length (le_bytes count v) = count.
Proof. induction count as [|count IH]; intros v; simpl; [|rewrite IH]; reflexivity. Qed.

Lemma le_value_le_bytes (count : nat) : forall v : Z,
  0 <= v < 2 ^ (8 * Z.of_nat count) ->
  le_value (le_bytes count v) = v.
Proof.
  induction count as [|count IH]; intros v Hv.
  - simpl in *. lia.
  - simpl le_bytes. simpl le_value. rewrite byte_val_byte_of.
    rewrite Nat2Z.inj_succ in Hv.
    replace (8 * Z.succ (Z.of_nat count)) with (8 + 8 * Z.of_nat count)
      in Hv by lia.
    rewrite Z.pow_add_r in Hv by lia.
    rewrite IH.
    + pose proof (Z.div_mod v (2 ^ 8) ltac:(lia)). lia.
    + split; [apply Z.div_pos; lia|].
      apply Z.div_lt_upper_bound; lia.
Qed.

(** X1: the edge lengths of [_decode]: with a length of zero or below no byte
    is read and the result is 0, whatever the array (even an empty one);
    with a length above 8 the copy leaves the 8-byte buffer and there is no
    defined result, whatever the array. *)
Theorem decode_edge_lengths (arr : list byte) (len : Z) :
  (len <= 0 -> _decode arr len = Some 0)
  /\ (8 < len -> _decode arr len = None).
Proof.
  split.
  - intros Hlen. unfold _decode, copy_bytes.
    replace (Z.to_nat len) with 0%nat by lia. reflexivity.
  - apply decode_overrun.
Qed.

(** X2: [_decode] looks at the first [len] bytes only: arrays that agree there
    decode alike, and the result is that of the same bytes zero-padded to a
    full 8-byte frame. *)
Theorem decode_ignores_tail (arr1 arr2 : list byte) (len : Z) :
  len <= 8 ->
  (Z.to_nat len <= length arr1)%nat ->
  (Z.to_nat len <= length arr2)%nat ->
  take (Z.to_nat len) arr1 = take (Z.to_nat len) arr2 ->
  _decode arr1 len = _decode arr2 len
  /\ _decode arr1 len
     = _decode (take (Z.to_nat len) arr1
                ++ replicate (8 - Z.to_nat len) x00) 8.
Proof.
  intros Hlen H1 H2 Heq.
  rewrite (decode_value arr1), (decode_value arr2) by assumption.
  split; [rewrite Heq; reflexivity|].
  rewrite decode_value;
    [ | lia | rewrite length_app, length_take_le, length_replicate; lia ].
  f_equal. change (Z.to_nat 8) with 8%nat.
  rewrite (take_ge (_ ++ _))
    by (rewrite length_app, length_take_le, length_replicate; lia).
  rewrite le_value_app, le_value_zero. lia.
Qed.

Lemma decode_ignores_tail_witness :
  _decode [x2a; x07; xff] 2 = _decode [x2a; x07; x00; x01] 2
  /\ _decode [x2a; x07; xff] 2
     = _decode (take (Z.to_nat 2) [x2a; x07; xff]
                ++ replicate (8 - Z.to_nat 2) x00) 8.
Proof.
  apply (decode_ignores_tail [x2a; x07; xff] [x2a; x07; x00; x01] 2);
    [lia | simpl; lia | simpl; lia | reflexivity].
Defined.

(** X3: every value below [2^(8*len)] is the decoding of some [len] bytes: with
    the injectivity of [_decode], the arrays of [len] bytes and the values
    below [2^(8*len)] correspond one to one. *)
Theorem decode_surjective (len v : Z) :
  0 <= len <= 8 ->
  0 <= v < 2 ^ (8 * len) ->
  exists arr : list byte,
    length arr = Z.to_nat len /\ _decode arr len = Some v.
Proof.
  intros Hlen Hv. exists (le_bytes (Z.to_nat len) v).
  split; [apply length_le_bytes|].
  rewrite decode_value by (rewrite ?length_le_bytes; lia).
  rewrite take_ge by (rewrite length_le_bytes; lia).
  rewrite le_value_le_bytes; [reflexivity|].
  rewrite Z2Nat.id by lia. exact Hv.
Qed.

Lemma decode_surjective_witness :
  exists arr : list byte,
    length arr = Z.to_nat 2 /\ _decode arr 2 = Some 513.
Proof. apply (decode_surjective 2 513); [lia | simpl; lia]. Defined.

(** X4: decoding composes over concatenation: the value of [arr1 ++ arr2] is
    the value of [arr1] plus the value of [arr2] shifted left by the bits
    of [arr1]. *)
Theorem decode_app (arr1 arr2 : list byte) (v1 v2 : Z) :
  (length arr1 + length arr2 <= 8)%nat ->
  _decode arr1 (Z.of_nat (length arr1)) = Some v1 ->
  _decode arr2 (Z.of_nat (length arr2)) = Some v2 ->
  _decode (arr1 ++ arr2) (Z.of_nat (length arr1 + length arr2))
  = Some (v1 + 2 ^ (8 * Z.of_nat (length arr1)) * v2).
Proof.
  intros Hlen.
  rewrite !decode_value by (rewrite ?length_app, ?Nat2Z.id; lia).
  rewrite !Nat2Z.id, !take_ge by (rewrite ?length_app; lia).
  intros [= <-] [= <-]. rewrite le_value_app. reflexivity.
Qed.

Lemma decode_app_witness :
  _decode ([x01; x02] ++ [x03])
    (Z.of_nat (length [x01; x02] + length [x03]))
  = Some (513 + 2 ^ (8 * Z.of_nat (length [x01; x02])) * 3).
Proof.
  apply (decode_app [x01; x02] [x03] 513 3);
    [simpl; lia | reflexivity | reflexivity].
Defined.

(** * Further properties of [poll] *)

(** A copy that succeeds stayed inside both arrays. *)
Lemma copy_loop_bounds (src : list byte) (count : nat) :
  forall (i : nat) (dst d : list byte),
    copy_loop src count i dst = Some d ->
    count = 0%nat
    \/ ((i + count <= length src)%nat /\ (i + count <= length dst)%nat).
Proof.
  induction count as [|count IH]; intros i dst d; simpl; [auto|].
  destruct (src !! i) as [b|] eqn:Hb; [|discriminate].
  destruct (decide (i < length dst)%nat) as [Hi|]; [|discriminate].
  intros H. apply IH in H. rewrite length_insert in H.
  apply lookup_lt_Some in Hb. right. lia.
Qed.

Section PollInversion.

Variables CALL_AND_RESP CAN_NO_ERROR : Z.
Variable env : Env.
Variable self : CANTelemetry.

Local Abbreviation wait_loop' := (wait_loop env).
Local Abbreviation poll' := (poll CALL_AND_RESP CAN_NO_ERROR env).
Local Abbreviation request_calls' := (request_calls CALL_AND_RESP).

(** A poll that returns read its payload in bounds. *)
Lemma poll_returns_payload_ok (fuel : nat) (header filter mode : Z)
  (frame : bool) (payload : list byte) (len : Z) (w : World)
  (v : Z) (w' : World) :
  len <= 8 ->
  poll' fuel self header filter mode frame payload len w = Returns v w' ->
  payload_ok CALL_AND_RESP mode payload len.
Proof.
  intros Hlen Hrun Hmode. revert Hrun. unfold poll.
  destruct (Z.ltb_spec 8 len) as [|_]; [lia|].
  destruct (Z.eqb_spec mode CALL_AND_RESP) as [_|]; [|contradiction].
  unfold bind at 3. unfold defined.
  destruct (copy_bytes payload len _) as [d|] eqn:Hcopy; [|run; discriminate].
  intros _. unfold copy_bytes in Hcopy.
  apply copy_loop_bounds in Hcopy. lia.
Qed.

(** How the loop can return: after [n] silent iterations, with the frame
    received or the timeout reached at iteration [n]. *)
Lemma wait_loop_inv (fuel : nat) :
  forall (t_stamp : Z) (w : World) (v : Z) (w' : World),
    wait_loop' fuel self t_stamp w = Returns v w' ->
    exists n : nat,
      (n < fuel)%nat
      /\ silent env self t_stamp (receives w) (clock_reads w) n
      /\ ((exists r : CANMessage.t,
             receive_at env (receives w + n) = Some r
             /\ _decode (CANMessage.data r) (CANMessage.len r) = Some v
             /\ w' = advance w (default_filter self)
                       (replicate (S n) Receive ++ restore_calls self)
                       0 (S n) n)
          \/ (receive_at env (receives w + n) = None
              /\ _timeout self <= elapsed env t_stamp (clock_reads w + n)
              /\ v = SENTINEL
              /\ w' = advance w (default_filter self)
                        (replicate (S n) Receive ++ restore_calls self)
                        0 (S n) (S n))).
Proof.
  induction fuel as [|fuel IH]; intros t_stamp w v w'; [discriminate|].
  destruct (receive_at env (receives w)) as [r|] eqn:Hr.
  - rewrite (wait_loop_frame _ _ _ _ _ r Hr).
    destruct (_decode _ _) as [v0|] eqn:Hdec; [|discriminate].
    intros [= <- <-]. exists 0%nat.
    split; [lia|]. split; [intros j Hj; lia|].
    left. exists r. rewrite Nat.add_0_r. auto.
  - destruct (Z.le_gt_cases (_timeout self)
                (elapsed env t_stamp (clock_reads w))) as [Ht|Ht].
    + rewrite (wait_loop_timeout _ _ _ _ _ Hr Ht).
      intros [= <- <-]. exists 0%nat.
      split; [lia|]. split; [intros j Hj; lia|].
      right. rewrite !Nat.add_0_r. auto.
    + assert (silent env self t_stamp (receives w) (clock_reads w) 1)
        as Hone.
      { intros j Hj. assert (j = 0%nat) as -> by lia.
        rewrite !Nat.add_0_r. split; assumption. }
      change (S fuel) with (1 + fuel)%nat.
      rewrite (wait_loop_silent _ _ _ _ _ _ Hone).
      intros H. apply IH in H as (n & Hn & Hsilent & Hexit). simpl in *.
      exists (S n). split; [lia|]. split.
      * intros [|j] Hj; [apply (Hone 0%nat); lia|].
        rewrite <- !Nat.add_succ_comm. rewrite !Nat.add_1_r in Hsilent.
        apply Hsilent. lia.
      * rewrite <- !Nat.add_succ_comm. rewrite !Nat.add_1_r in Hexit.
        destruct Hexit as [(r & Hrn & Hdec & ->)|(Hrn & Htn & -> & ->)].
        -- left. exists r. split; [exact Hrn|]. split; [exact Hdec|].
           same_world.
        -- right. split; [exact Hrn|]. split; [exact Htn|].
           split; [reflexivity|]. same_world.
Qed.

(** How a poll can return. *)
Lemma poll_inv (fuel : nat) (header filter mode : Z) (frame : bool)
  (payload : list byte) (len : Z) (w : World) (v : Z) (w' : World) :
  len <= 8 ->
  poll' fuel self header filter mode frame payload len w = Returns v w' ->
  (errorStatus_at env (errors_read w) <> CAN_NO_ERROR
   /\ v = SENTINEL
   /\ w' = advance w (default_filter self)
             (request_calls' header filter mode frame payload len
              ++ [ErrorStatus; Transmit (diagnostic_frame self)]
              ++ restore_calls self) 1 0 0)
  \/ (errorStatus_at env (errors_read w) = CAN_NO_ERROR
      /\ exists n : nat,
           (n < fuel)%nat
           /\ silent env self (time_stamp env w) (receives w)
                (S (clock_reads w)) n
           /\ ((exists r : CANMessage.t,
                  receive_at env (receives w + n) = Some r
                  /\ _decode (CANMessage.data r) (CANMessage.len r) = Some v
                  /\ w' = advance w (default_filter self)
                            (request_calls' header filter mode frame payload
                               len
                             ++ [ErrorStatus] ++ replicate (S n) Receive
                             ++ restore_calls self) 1 (S n) (S n))
               \/ (receive_at env (receives w + n) = None
                   /\ _timeout self
                      <= elapsed env (time_stamp env w)
                           (S (clock_reads w) + n)
                   /\ v = SENTINEL
                   /\ w' = advance w (default_filter self)
                             (request_calls' header filter mode frame payload
                                len
                              ++ [ErrorStatus] ++ replicate (S n) Receive
                              ++ restore_calls self) 1 (S n) (S (S n))))).
Proof.
  intros Hlen Hrun.
  pose proof (poll_returns_payload_ok _ _ _ _ _ _ _ _ _ _ Hlen Hrun) as Hpay.
  rewrite (poll_request _ _ _ _ _ _ _ _ _ _ _ _ Hlen Hpay) in Hrun.
  destruct (Z.eqb_spec (errorStatus_at env (errors_read w)) CAN_NO_ERROR)
    as [Herr|Herr].
  - right. split; [exact Herr|].
    apply wait_loop_inv in Hrun as (n & Hn & Hsilent & Hexit). simpl in *.
    rewrite Nat.add_0_r, Nat.add_1_r in *.
    exists n. split; [exact Hn|]. split; [exact Hsilent|].
    destruct Hexit as [(r & Hrn & Hdec & ->)|(Hrn & Htn & -> & ->)].
    + left. exists r. split; [exact Hrn|]. split; [exact Hdec|]. same_world.
    + right. split; [exact Hrn|]. split; [exact Htn|].
      split; [reflexivity|]. same_world.
  - left. injection Hrun as <- <-. auto.
Qed.

End PollInversion.

(** The value [_decode] returns fits 64 bits. *)
Lemma decode_range (arr : list byte) (len v : Z) :
  _decode arr len = Some v -> 0 <= v < 2 ^ 64.
Proof.
  unfold _decode.
  destruct (copy_bytes arr len zero_buffer) as [n|] eqn:Hcopy; [|discriminate].
  intros [= <-]. apply length_copy_bytes in Hcopy.
  pose proof (le_value_range n) as Hr. rewrite Hcopy in Hr. exact Hr.
Qed.

Lemma transmitted_app (cs1 cs2 : list bus_call) :
  transmitted (cs1 ++ cs2) = transmitted cs1 ++ transmitted cs2.
Proof.
  induction cs1 as [|c cs1 IH]; [reflexivity|].
  destruct c; simpl; rewrite ?IH; reflexivity.
Qed.

Lemma transmitted_receives (n : nat) : transmitted (replicate n Receive) = [].
Proof. induction n as [|n IH]; [reflexivity | exact IH]. Qed.

Section PollFurther.

Variables CALL_AND_RESP CAN_NO_ERROR : Z.
Variable env : Env.
Variable self : CANTelemetry.

Local Abbreviation poll' := (poll CALL_AND_RESP CAN_NO_ERROR env).
Local Abbreviation request_calls' := (request_calls CALL_AND_RESP).

(** X5: the calls of a returning poll with a length of at most 8: the filter
    installation and, in call-and-response mode, the query frame; one read
    of the error status; then either the diagnostic frame alone (bus error:
    no receive, no clock read) or one receive attempt or more (no error);
    and last the restoration of the default filter. *)
Theorem poll_call_shape (fuel : nat) (header filter mode : Z) (frame : bool)
  (payload : list byte) (len : Z) (w : World) (v : Z) (w' : World) :
  len <= 8 ->
  poll' fuel self header filter mode frame payload len w = Returns v w' ->
  errors_read w' = S (errors_read w)
  /\ exists middle : list bus_call,
       calls w'
       = calls w
         ++ request_calls' header filter mode frame payload len
         ++ [ErrorStatus] ++ middle
         ++ [ClearFilters; AddFilter (_node_id self) 0x7FF]
       /\ ((errorStatus_at env (errors_read w) <> CAN_NO_ERROR
            /\ middle = [Transmit (diagnostic_frame self)]
            /\ receives w' = receives w
            /\ clock_reads w' = clock_reads w)
           \/ (errorStatus_at env (errors_read w) = CAN_NO_ERROR
               /\ exists n : nat,
                    (n < fuel)%nat
                    /\ middle = replicate (S n) Receive
                    /\ receives w' = (receives w + S n)%nat
                    /\ (clock_reads w' = (clock_reads w + S n)%nat
                        \/ clock_reads w' = (clock_reads w + S (S n))%nat))).
Proof.
  intros Hlen Hrun.
  destruct (poll_inv _ _ _ _ _ _ _ _ _ _ _ _ _ _ Hlen Hrun)
    as [(Herr & _ & ->)
       |(Herr & n & Hn & _ & [(r & _ & _ & ->)|(_ & _ & _ & ->)])];
    simpl; (split; [lia|]).
  - exists [Transmit (diagnostic_frame self)].
    split; [repeat (rewrite <- app_assoc; simpl); reflexivity|].
    left. repeat split; first [exact Herr | lia].
  - exists (replicate (S n) Receive).
    split; [repeat (rewrite <- app_assoc; simpl); reflexivity|].
    right. split; [exact Herr|]. exists n. repeat split; auto.
  - exists (replicate (S n) Receive).
    split; [repeat (rewrite <- app_assoc; simpl); reflexivity|].
    right. split; [exact Herr|]. exists n. repeat split; auto.
Qed.

(** X6: the frames a returning poll transmits: the query frame exactly when
    the mode is [CALL_AND_RESP], followed by the diagnostic frame exactly
    when the bus reports an error; never more than these two. *)
Theorem poll_transmits (fuel : nat) (header filter mode : Z) (frame : bool)
  (payload : list byte) (len : Z) (w : World) (v : Z) (w' : World) :
  len <= 8 ->
  poll' fuel self header filter mode frame payload len w = Returns v w' ->
  exists cs : list bus_call,
    calls w' = calls w ++ cs
    /\ transmitted cs
       = (if mode =? CALL_AND_RESP
          then [request_frame header frame payload len] else [])
         ++ (if errorStatus_at env (errors_read w) =? CAN_NO_ERROR
             then [] else [diagnostic_frame self]).
Proof.
  intros Hlen Hrun.
  destruct (poll_inv _ _ _ _ _ _ _ _ _ _ _ _ _ _ Hlen Hrun)
    as [(Herr & _ & ->)
       |(Herr & n & _ & _ & [(r & _ & _ & ->)|(_ & _ & _ & ->)])];
    unfold advance; cbn [calls]; eexists; (split; [reflexivity|]);
    rewrite ?Herr, ?Z.eqb_refl;
    try (destruct (Z.eqb_spec (errorStatus_at env (errors_read w))
                     CAN_NO_ERROR) as [|_]; [contradiction|]);
    unfold request_calls;
    rewrite !transmitted_app, ?transmitted_receives;
    destruct (mode =? CALL_AND_RESP); reflexivity.
Qed.

(** X7: a returned value fits 64 bits, and a value other than the sentinel is
    always the decoding of the first frame the bus delivered, on a bus
    without error: no failure returns anything but the sentinel. *)
Theorem poll_value_is_frame (fuel : nat) (header filter mode : Z)
  (frame : bool) (payload : list byte) (len : Z) (w : World)
  (v : Z) (w' : World) :
  poll' fuel self header filter mode frame payload len w = Returns v w' ->
  0 <= v < 2 ^ 64
  /\ (v <> SENTINEL ->
      len <= 8
      /\ errorStatus_at env (errors_read w) = CAN_NO_ERROR
      /\ exists (n : nat) (r : CANMessage.t),
           receive_at env (receives w + n) = Some r
           /\ (forall j : nat, (j < n)%nat ->
                 receive_at env (receives w + j) = None)
           /\ _decode (CANMessage.data r) (CANMessage.len r) = Some v).
Proof.
  intros Hrun.
  assert (0 <= SENTINEL < 2 ^ 64) as Hs by (vm_compute; split; congruence).
  destruct (Z.le_gt_cases len 8) as [Hlen|Hlen].
  - destruct (poll_inv _ _ _ _ _ _ _ _ _ _ _ _ _ _ Hlen Hrun)
      as [(Herr & -> & _)
         |(Herr & n & _ & Hsilent & [(r & Hr & Hdec & _)|(_ & _ & -> & _)])].
    + split; [exact Hs | contradiction].
    + split; [exact (decode_range _ _ _ Hdec)|].
      intros _. split; [exact Hlen|]. split; [exact Herr|].
      exists n, r. split; [exact Hr|]. split; [|exact Hdec].
      intros j Hj. apply (Hsilent j Hj).
    + split; [exact Hs | contradiction].
  - unfold poll in Hrun.
    destruct (Z.ltb_spec 8 len) as [_|]; [|lia].
    injection Hrun as <- _. split; [exact Hs | contradiction].
Qed.

(** X8: a poll reads the first [len] bytes of its payload only: payloads that
    agree there give the same outcome, value and bus calls alike. *)
Theorem poll_payload_prefix (fuel : nat) (header filter mode : Z)
  (frame : bool) (payload1 payload2 : list byte) (len : Z) (w : World) :
  len <= 8 ->
  (Z.to_nat len <= length payload1)%nat ->
  (Z.to_nat len <= length payload2)%nat ->
  take (Z.to_nat len) payload1 = take (Z.to_nat len) payload2 ->
  poll' fuel self header filter mode frame payload1 len w
  = poll' fuel self header filter mode frame payload2 len w.
Proof.
  intros Hlen H1 H2 Heq.
  rewrite (poll_request _ _ _ _ _ _ _ _ _ payload1 _ _ Hlen (fun _ => H1)).
  rewrite (poll_request _ _ _ _ _ _ _ _ _ payload2 _ _ Hlen (fun _ => H2)).
  unfold request_calls, request_frame. rewrite Heq. reflexivity.
Qed.

(** X9: in any mode other than [CALL_AND_RESP] a poll with a length of at most
    8 looks at neither the header, the frame kind, the payload nor the
    length: only the filter and the bus decide its outcome. *)
Theorem poll_passive_ignores_request (fuel : nat) (filter : Z)
  (header1 header2 mode1 mode2 : Z) (frame1 frame2 : bool)
  (payload1 payload2 : list byte) (len1 len2 : Z) (w : World) :
  mode1 <> CALL_AND_RESP ->
  mode2 <> CALL_AND_RESP ->
  len1 <= 8 ->
  len2 <= 8 ->
  poll' fuel self header1 filter mode1 frame1 payload1 len1 w
  = poll' fuel self header2 filter mode2 frame2 payload2 len2 w.
Proof.
  intros Hm1 Hm2 Hl1 Hl2. unfold poll.
  destruct (Z.ltb_spec 8 len1) as [|_]; [lia|].
  destruct (Z.ltb_spec 8 len2) as [|_]; [lia|].
  destruct (Z.eqb_spec mode1 CALL_AND_RESP) as [|_]; [contradiction|].
  destruct (Z.eqb_spec mode2 CALL_AND_RESP) as [|_]; [contradiction|].
  reflexivity.
Qed.

End PollFurther.

Lemma to_ulong_range (z : Z) : 0 <= to_ulong z < 2 ^ 32.
Proof. unfold to_ulong. apply Z.mod_pos_bound. lia. Qed.

Lemma elapsed_nonneg (env : Env) (t_stamp : Z) (c : nat) :
  0 <= elapsed env t_stamp c.
Proof. unfold elapsed. apply to_ulong_range. Qed.

Section PollTimeouts.

Variables CALL_AND_RESP CAN_NO_ERROR : Z.
Variable env : Env.
Variable self : CANTelemetry.

Local Abbreviation poll' := (poll CALL_AND_RESP CAN_NO_ERROR env).
Local Abbreviation request_calls' := (request_calls CALL_AND_RESP).

(** X10: after [change_timeout(0)] a poll on a bus without error makes exactly
    one receive attempt: the receive comes before the timeout check, so a
    frame that is already there is still returned, and otherwise the poll
    returns the sentinel after that one attempt. *)
Theorem poll_zero_timeout (fuel : nat) (header filter mode : Z)
  (frame : bool) (payload : list byte) (len : Z) (w : World) :
  len <= 8 ->
  payload_ok CALL_AND_RESP mode payload len ->
  errorStatus_at env (errors_read w) = CAN_NO_ERROR ->
  (forall r, receive_at env (receives w) = Some r -> CANMessage.well_formed r) ->
  exists (v : Z) (w' : World),
    poll' (S fuel) (change_timeout self 0) header filter mode frame payload
      len w = Returns v w'
    /\ receives w' = S (receives w)
    /\ (forall r, receive_at env (receives w) = Some r ->
          _decode (CANMessage.data r) (CANMessage.len r) = Some v)
    /\ (receive_at env (receives w) = None -> v = SENTINEL).
Proof.
  intros Hlen Hpay Herr Hwf.
  rewrite (poll_request _ _ _ _ _ _ _ _ _ _ _ _ Hlen Hpay).
  rewrite Herr, Z.eqb_refl.
  destruct (receive_at env (receives w)) as [r|] eqn:Hr.
  - rewrite (wait_loop_frame _ _ _ _ _ r)
      by (simpl; rewrite Nat.add_0_r; exact Hr).
    rewrite (decode_well_formed r (Hwf r eq_refl)).
    eexists _, _. split; [reflexivity|]. simpl.
    split; [lia|]. split; [|discriminate].
    intros r' [= <-]. apply decode_well_formed, Hwf. reflexivity.
  - rewrite wait_loop_timeout;
      [ | simpl; rewrite Nat.add_0_r; exact Hr | apply elapsed_nonneg ].
    eexists _, _. split; [reflexivity|]. simpl.
    split; [lia|]. split; [discriminate | reflexivity].
Qed.

(** X11: a negative timeout is stored as an [unsigned long]: [-1] becomes
    [2^32 - 1].  A poll then does not time out at once but keeps waiting:
    it is still in its loop after any number of iterations that bring no
    frame and whose elapsed time is below [2^31] ms. *)
Theorem poll_negative_timeout_waits (k : nat) (timeout : Z)
  (header filter mode : Z) (frame : bool) (payload : list byte) (len : Z)
  (w : World) :
  - 2 ^ 31 <= timeout < 0 ->
  len <= 8 ->
  payload_ok CALL_AND_RESP mode payload len ->
  errorStatus_at env (errors_read w) = CAN_NO_ERROR ->
  (forall j : nat, (j < k)%nat ->
     receive_at env (receives w + j) = None
     /\ elapsed env (time_stamp env w) (S (clock_reads w) + j) < 2 ^ 31) ->
  _timeout (change_timeout self timeout) = timeout + 2 ^ 32
  /\ poll' k (change_timeout self timeout) header filter mode frame payload
       len w = OutOfFuel.
Proof.
  intros Ht Hlen Hpay Herr Hquiet.
  assert (_timeout (change_timeout self timeout) = timeout + 2 ^ 32) as Hto.
  { simpl. unfold to_ulong.
    rewrite <- (Z.mod_add timeout 1 (2 ^ 32)) by lia.
    apply Z.mod_small. lia. }
  split; [exact Hto|].
  rewrite (poll_request _ _ _ _ _ _ _ _ _ _ _ _ Hlen Hpay).
  rewrite Herr, Z.eqb_refl.
  replace k with (k + 0)%nat at 1 by lia.
  rewrite wait_loop_silent; [reflexivity|].
  intros j Hj. simpl. rewrite Nat.add_0_r, Nat.add_1_r.
  destruct (Hquiet j Hj) as [Hr He]. split; [exact Hr|].
  change (to_ulong timeout) with (_timeout (change_timeout self timeout)).
  rewrite Hto. lia.
Qed.

(** X12: the timeout check survives the wrap of the millisecond clock: when
    [d] ms (below [2^32]) have really passed between the time stamp and
    the first check, whatever the clock values, a poll that received
    nothing times out there exactly when [d] reaches the timeout. *)
Theorem poll_timeout_across_clock_wrap (fuel : nat) (d : Z)
  (header filter mode : Z) (frame : bool) (payload : list byte) (len : Z)
  (w : World) :
  len <= 8 ->
  payload_ok CALL_AND_RESP mode payload len ->
  errorStatus_at env (errors_read w) = CAN_NO_ERROR ->
  receive_at env (receives w) = None ->
  0 <= d < 2 ^ 32 ->
  to_ulong (millis_at env (S (clock_reads w)))
  = to_ulong (millis_at env (clock_reads w) + d) ->
  (_timeout self <= d ->
   poll' (S fuel) self header filter mode frame payload len w
   = Returns SENTINEL
       (advance w (default_filter self)
          (request_calls' header filter mode frame payload len
           ++ [ErrorStatus; Receive] ++ restore_calls self) 1 1 2))
  /\ (d < _timeout self ->
      poll' 1 self header filter mode frame payload len w = OutOfFuel).
Proof.
  intros Hlen Hpay Herr Hr Hd Hclock.
  assert (elapsed env (time_stamp env w) (S (clock_reads w)) = d) as Hel.
  { unfold elapsed, time_stamp. rewrite Hclock. unfold to_ulong.
    rewrite <- Zminus_mod.
    replace (millis_at env (clock_reads w) + d - millis_at env (clock_reads w))
      with d by lia.
    apply Z.mod_small. exact Hd. }
  rewrite !(poll_request _ _ _ _ _ _ _ _ _ _ _ _ Hlen Hpay).
  rewrite Herr, Z.eqb_refl. split; intros Ht.
  - rewrite wait_loop_timeout;
      [ | simpl; rewrite Nat.add_0_r; exact Hr
        | simpl; rewrite Nat.add_1_r, Hel; exact Ht ].
    f_equal. same_world.
  - change 1%nat with (1 + 0)%nat.
    rewrite wait_loop_silent; [reflexivity|].
    intros j Hj. assert (j = 0%nat) as -> by lia. simpl.
    rewrite !Nat.add_0_r, Nat.add_1_r, Hel. split; [exact Hr | exact Ht].
Qed.


End PollTimeouts.

(** * The class invariant *)


(** A poll keeps the default filter installed and the filter restoration
    as the last calls on the bus. *)
Lemma poll_keeps_default_filter (CALL_AND_RESP CAN_NO_ERROR : Z) (env : Env)
  (self : CANTelemetry) (fuel : nat) (header filter mode : Z) (frame : bool)
  (payload : list byte) (len : Z) (w : World) (v : Z) (w' : World) :
  filters w = default_filter self ->
  (exists cs, calls w = cs ++ restore_calls self) ->
  poll CALL_AND_RESP CAN_NO_ERROR env fuel self header filter mode frame
    payload len w = Returns v w' ->
  filters w' = default_filter self
  /\ exists cs, calls w' = cs ++ restore_calls self.
Proof.
  intros Hf Hc Hrun.
  destruct (Z.le_gt_cases len 8) as [Hlen|Hlen].
  - destruct (poll_inv _ _ _ _ _ _ _ _ _ _ _ _ _ _ Hlen Hrun)
      as [(_ & _ & ->)|(_ & n & _ & _ & [(r & _ & _ & ->)|(_ & _ & _ & ->)])];
      (split; [reflexivity|]); unfold advance; cbn [calls]; eexists;
      rewrite !app_assoc; reflexivity.
  - unfold poll in Hrun. destruct (Z.ltb_spec 8 len) as [_|]; [|lia].
    injection Hrun as _ <-. auto.
Qed.

(** X15: the class invariant: in every state reached by a construction followed
    by returned polls (valid or not, either overload) and timeout changes,
    the node identifier is the one given at construction, the only filter
    on the bus is [(node identifier, 0x7FF)], the last calls made on the bus
    are the installation of that filter, and the timeout fits an
    [unsigned long]. *)
Theorem reachable_invariant (CALL_AND_RESP CAN_NO_ERROR : Z) (env : Env)
  (node_id : Z) (self : CANTelemetry) (w : World) :
  reachable CALL_AND_RESP CAN_NO_ERROR env node_id self w ->
  _node_id self = node_id
  /\ filters w = [(node_id, 0x7FF)]
  /\ (exists cs, calls w = cs ++ [ClearFilters; AddFilter node_id 0x7FF])
  /\ 0 <= _timeout self < 2 ^ 32.
Proof.
  induction 1 as [baud_rate timeout debug w0 self w Hnew
                 |self w fuel header filter mode frame payload len v w' _ IH
                    Hrun
                 |self w fuel header mode frame payload len v w' _ IH Hrun
                 |self w timeout _ IH].
  - assert (self = {| _baud_rate := baud_rate; _node_id := node_id;
                      _timeout := to_ulong timeout; _debug := debug |}
            /\ filters w = [(node_id, 0x7FF)]
            /\ calls w
               = (calls w0 ++ [Begin baud_rate debug])
                 ++ [ClearFilters; AddFilter node_id 0x7FF]) as (-> & Hf & Hc).
    { destruct debug; injection Hnew as <- <-; simpl;
        repeat (rewrite <- app_assoc; simpl); auto. }
    split; [reflexivity|]. split; [exact Hf|]. split; [eauto|].
    apply to_ulong_range.
  - destruct IH as (Hid & Hf & Hc & Ht).
    pose proof (fun Hf0 Hc0 =>
                  poll_keeps_default_filter _ _ _ _ _ _ _ _ _ _ _ _ _ _
                    Hf0 Hc0 Hrun) as Hkeep.
    unfold default_filter, restore_calls in Hkeep. rewrite Hid in Hkeep.
    destruct (Hkeep Hf Hc) as [Hf' Hc']. auto.
  - destruct IH as (Hid & Hf & Hc & Ht). unfold poll_header in Hrun.
    pose proof (fun Hf0 Hc0 =>
                  poll_keeps_default_filter _ _ _ _ _ _ _ _ _ _ _ _ _ _
                    Hf0 Hc0 Hrun) as Hkeep.
    unfold default_filter, restore_calls in Hkeep. rewrite Hid in Hkeep.
    destruct (Hkeep Hf Hc) as [Hf' Hc']. auto.
  - destruct IH as (Hid & Hf & Hc & Ht).
    split; [exact Hid|]. split; [exact Hf|]. split; [exact Hc|].
    apply to_ulong_range.
Qed.

(** * Scenarios of the further properties *)

Lemma decode_edge_lengths_witness :
  _decode [x01] (-3) = Some 0 /\ _decode (replicate 9 x01) 9 = None.
Proof.
  split.
  - apply (decode_edge_lengths [x01] (-3)). lia.
  - apply (decode_edge_lengths (replicate 9 x01) 9). lia.
Defined.

Lemma poll_call_shape_witness :
  exists (v : Z) (w' : World),
    poll 0 0 answering 3 node 0x200 0x200 0 false [x01; x02] 2 idle
    = Returns v w'
    /\ errors_read w' = S (errors_read idle)
    /\ exists middle : list bus_call,
         calls w'
         = calls idle
           ++ request_calls 0 0x200 0x200 0 false [x01; x02] 2
           ++ [ErrorStatus] ++ middle
           ++ [ClearFilters; AddFilter (_node_id node) 0x7FF]
         /\ ((errorStatus_at answering (errors_read idle) <> 0
              /\ middle = [Transmit (diagnostic_frame node)]
              /\ receives w' = receives idle
              /\ clock_reads w' = clock_reads idle)
             \/ (errorStatus_at answering (errors_read idle) = 0
                 /\ exists n : nat,
                      (n < 3)%nat
                      /\ middle = replicate (S n) Receive
                      /\ receives w' = (receives idle + S n)%nat
                      /\ (clock_reads w' = (clock_reads idle + S n)%nat
                          \/ clock_reads w'
                             = (clock_reads idle + S (S n))%nat))).
Proof.
  eexists _, _. split; [vm_compute; reflexivity|].
  apply (poll_call_shape 0 0 answering node 3 0x200 0x200 0 false [x01; x02]
           2 idle 42); [lia | vm_compute; reflexivity].
Defined.

Lemma poll_transmits_witness :
  exists (v : Z) (w' : World),
    poll 0 0 faulty 0 node 0x200 0x200 0 false [x01; x02] 2 idle
    = Returns v w'
    /\ exists cs : list bus_call,
         calls w' = calls idle ++ cs
         /\ transmitted cs
            = (if 0 =? 0
               then [request_frame 0x200 false [x01; x02] 2] else [])
              ++ (if errorStatus_at faulty (errors_read idle) =? 0
                  then [] else [diagnostic_frame node]).
Proof.
  destruct (poll 0 0 faulty 0 node 0x200 0x200 0 false [x01; x02] 2 idle)
    as [v w'| |] eqn:Hrun; [|vm_compute in Hrun; discriminate Hrun..].
  exists v, w'. split; [reflexivity|].
  apply (poll_transmits 0 0 faulty node 0 0x200 0x200 0 false [x01; x02] 2
           idle v w'); [lia | exact Hrun].
Defined.

Lemma poll_value_is_frame_witness :
  exists (v : Z) (w' : World),
    poll 0 0 answering 3 node 0x200 0x200 0 false [x01; x02] 2 idle
    = Returns v w'
    /\ 0 <= v < 2 ^ 64
    /\ (v <> SENTINEL ->
        2 <= 8
        /\ errorStatus_at answering (errors_read idle) = 0
        /\ exists (n : nat) (r : CANMessage.t),
             receive_at answering (receives idle + n) = Some r
             /\ (forall j : nat, (j < n)%nat ->
                   receive_at answering (receives idle + j) = None)
             /\ _decode (CANMessage.data r) (CANMessage.len r) = Some v).
Proof.
  eexists _, _. split; [vm_compute; reflexivity|].
  eapply (poll_value_is_frame 0 0 answering node 3 0x200 0x200 0 false
            [x01; x02] 2 idle 42).
  vm_compute. reflexivity.
Defined.

Lemma poll_payload_prefix_witness :
  poll 0 0 answering 3 node 0x200 0x200 0 false [x01; x02] 2 idle
  = poll 0 0 answering 3 node 0x200 0x200 0 false [x01; x02; xff] 2 idle.
Proof.
  apply (poll_payload_prefix 0 0 answering node 3 0x200 0x200 0 false
           [x01; x02] [x01; x02; xff] 2 idle);
    [lia | simpl; lia | simpl; lia | reflexivity].
Defined.

Lemma poll_passive_ignores_request_witness :
  poll 0 0 answering 3 node 0x200 0x300 1 false [] 0 idle
  = poll 0 0 answering 3 node 0x201 0x300 7 true [x01; x02] 5 idle.
Proof.
  apply (poll_passive_ignores_request 0 0 answering node 3 0x300 0x200 0x201
           1 7 false true [] [x01; x02] 0 5 idle); lia.
Defined.

Lemma poll_zero_timeout_witness :
  exists (v : Z) (w' : World),
    poll 0 0 mute 1 (change_timeout node 0) 0x200 0x200 0 false [x01; x02] 2
      idle = Returns v w'
    /\ receives w' = S (receives idle)
    /\ (forall r, receive_at mute (receives idle) = Some r ->
          _decode (CANMessage.data r) (CANMessage.len r) = Some v)
    /\ (receive_at mute (receives idle) = None -> v = SENTINEL).
Proof.
  apply (poll_zero_timeout 0 0 mute node 0 0x200 0x200 0 false [x01; x02] 2
           idle).
  - lia.
  - intros _. simpl. lia.
  - reflexivity.
  - intros r. simpl. discriminate.
Defined.

Lemma poll_negative_timeout_waits_witness :
  _timeout (change_timeout node (-1)) = -1 + 2 ^ 32
  /\ poll 0 0 mute 3 (change_timeout node (-1)) 0x200 0x200 0 false
       [x01; x02] 2 idle = OutOfFuel.
Proof.
  apply (poll_negative_timeout_waits 0 0 mute node 3 (-1) 0x200 0x200 0 false
           [x01; x02] 2 idle).
  - lia.
  - lia.
  - intros _. simpl. lia.
  - reflexivity.
  - intros j Hj. destruct j as [|[|[|j]]]; [split; reflexivity..|lia].
Defined.

Lemma poll_timeout_across_clock_wrap_witness :
  (_timeout node <= 60 ->
   poll 0 0 wrapping 1 node 0x200 0x200 0 false [x01; x02] 2 idle
   = Returns SENTINEL
       (advance idle (default_filter node)
          (request_calls 0 0x200 0x200 0 false [x01; x02] 2
           ++ [ErrorStatus; Receive] ++ restore_calls node) 1 1 2))
  /\ (60 < _timeout node ->
      poll 0 0 wrapping 1 node 0x200 0x200 0 false [x01; x02] 2 idle
      = OutOfFuel).
Proof.
  apply (poll_timeout_across_clock_wrap 0 0 wrapping node 0 60 0x200 0x200 0
           false [x01; x02] 2 idle).
  - lia.
  - intros _. simpl. lia.
  - reflexivity.
  - reflexivity.
  - lia.
  - reflexivity.
Defined.


(** A node constructed on a bus that held a foreign filter, then a poll
    too long to be sent, a poll that is answered and a timeout change. *)
Lemma reachable_invariant_witness :
  exists (self : CANTelemetry) (w : World),
    reachable 0 0 answering 0x100 self w
    /\ _node_id self = 0x100
    /\ filters w = [(0x100, 0x7FF)]
    /\ (exists cs, calls w = cs ++ [ClearFilters; AddFilter 0x100 0x7FF])
    /\ 0 <= _timeout self < 2 ^ 32.
Proof.
  assert (exists (self : CANTelemetry) (w : World),
            reachable 0 0 answering 0x100 self w) as (self & w & Hreach).
  { eexists _, _.
    eapply (reach_change_timeout 0 0 answering 0x100 _ _ (-1)).
    eapply (reach_poll 0 0 answering 0x100 _ _ 3 0x200 0x200 0 false
              [x01; x02] 2).
    - eapply (reach_poll_header 0 0 answering 0x100 _ _ 3 0x200 0 false
                (replicate 9 x01) 9).
      + apply (reach_new 0 0 answering 0x100 500000 50 false
                 {| filters := [(0x7, 0x7FF)]; calls := [];
                    errors_read := 0; receives := 0; clock_reads := 0 |}).
        vm_compute. reflexivity.
      + vm_compute. reflexivity.
    - vm_compute. reflexivity. }
  exists self, w. split; [exact Hreach|].
  exact (reachable_invariant 0 0 answering 0x100 self w Hreach).
Defined.
